(** * RegexAI: the common-pattern catalog, the response parser, the pattern
      tester and the pattern explainer of [regex_ai.py]

    The development embeds the methods of class [RegexAI] as Rocq functions.
    Python [str] values are modelled as [string]; the embedding covers ASCII
    text, on which [str.lower] and [str.strip] act as defined in [PyStr].
    Console output and calls to the chat-completion service are recorded in
    a trace; exceptions are explicit outcomes. *)

From Stdlib Require Import String Ascii List Bool Arith Lia DecimalString.
Import ListNotations.
Open Scope string_scope.

(** ** Python string primitives used by the source *)

Module PyStr.

(** The newline, pipe and double-quote characters. *)
Definition nl : ascii := ascii_of_nat 10.
Definition pipe : ascii := ascii_of_nat 124.
Definition dquote : ascii := ascii_of_nat 34.

(** [c.lower()] on one ASCII character: [A]..[Z] move to [a]..[z]. *)
Definition lower_char (c : ascii) : ascii :=
  let n := nat_of_ascii c in
  if Nat.leb 65 n && Nat.leb n 90 then ascii_of_nat (n + 32) else c.

(** [s.lower()] *)
Fixpoint lower (s : string) : string :=
  match s with
  | EmptyString => EmptyString
  | String c t => String (lower_char c) (lower t)
  end.

(** [s.startswith(p)] *)
Definition startswith (p s : string) : bool := prefix p s.

(** [needle in hay]: substring containment. *)
Fixpoint contains (needle hay : string) : bool :=
  match hay with
  | EmptyString => prefix needle EmptyString
  | String _ t => prefix needle hay || contains needle t
  end.

(** The characters [str.isspace] accepts in the ASCII range: tab, line feed,
    vertical tab, form feed, carriage return, the four separators
    0x1c..0x1f, and space. [str.strip] removes the whitespace outside
    ASCII as well (U+0085, U+00A0, U+1680, U+2000 to U+200A, U+2028,
    U+2029, U+202F, U+205F, U+3000); [lstrip] and [rstrip] below do not,
    so they are Python's on ASCII text only. *)
Definition is_space (c : ascii) : bool :=
  let n := nat_of_ascii c in
  (Nat.leb 9 n && Nat.leb n 13) || (Nat.leb 28 n && Nat.leb n 32).

(** [s.lstrip()] *)
Fixpoint lstrip (s : string) : string :=
  match s with
  | EmptyString => EmptyString
  | String c t => if is_space c then lstrip t else s
  end.

(** [s.rstrip()] *)
Fixpoint rstrip (s : string) : string :=
  match s with
  | EmptyString => EmptyString
  | String c t =>
      match rstrip t with
      | EmptyString => if is_space c then EmptyString else String c EmptyString
      | t' => String c t'
      end
  end.

(** [s.strip()] *)
Definition strip (s : string) : string := rstrip (lstrip s).

(** [s.split(sep)] for a one-character separator: the pieces between the
    separators, empty pieces kept, never the empty list. *)
Fixpoint split (sep : ascii) (s : string) : list string :=
  match s with
  | EmptyString => [EmptyString]
  | String c t =>
      if Ascii.eqb c sep then EmptyString :: split sep t
      else match split sep t with
           | [] => [String c EmptyString]
           | piece :: rest => String c piece :: rest
           end
  end.

(** [s.replace(old, new)] for a non-empty [old]: the occurrences of [old]
    are replaced from left to right, without overlap. [skip] counts the
    characters of a matched occurrence that are still to be dropped. *)
Fixpoint replace_from (old new s : string) (skip : nat) : string :=
  match s with
  | EmptyString => EmptyString
  | String c t =>
      match skip with
      | S k => replace_from old new t k
      | O =>
          if prefix old s
          then new ++ replace_from old new t (String.length old - 1)
          else String c (replace_from old new t 0)
      end
  end.

(** With an empty [old] Python puts [new] before every character and at
    the end. *)
Fixpoint intersperse (new s : string) : string :=
  match s with
  | EmptyString => new
  | String c t => new ++ String c (intersperse new t)
  end.

Definition replace (old new s : string) : string :=
  match old with
  | EmptyString => intersperse new s
  | _ => replace_from old new s 0
  end.

(** Truth value of a string: non-empty. *)
Definition truthy (s : string) : bool :=
  match s with EmptyString => false | _ => true end.

End PyStr.

Import PyStr.

(** ** The catalog of common patterns *)

(** One [pattern_info] dictionary of [common_patterns]. *)
Record PatternRecord : Type := mkPatternRecord {
  pattern : string;
  explanation : string;
  examples : list string
}.

Definition email_info : PatternRecord :=
  mkPatternRecord
    "^[a-zA-Z0-9._%+-]+@[a-zA-Z0-9.-]+\.[a-zA-Z]{2,}$"
    "Matches standard email addresses with alphanumeric characters, dots, underscores, plus signs and hyphens"
    ["user@example.com"; "test.email+tag@domain.co.uk"; "simple@test.org"].

Definition phone_info : PatternRecord :=
  mkPatternRecord
    "^\+?[1-9]\d{1, 14}$"
    "Matches international phone numbers with optional plus sign and 2-15 digits"
    ["+1234567890"; "1234567890"; "+441234567890"].

Definition url_info : PatternRecord :=
  mkPatternRecord
    "^https?://[^\s]+$"
    "Matches HTTP and HTTPS URLs"
    ["https://example.com"; "http://test.org/path"; "https://sub.domain.com/page?query=value"].

Definition ip_info : PatternRecord :=
  mkPatternRecord
    "^(?:[0-9]{1, 3}\.){3}[0-9]{1, 3}$"
    "Matches IPv4 addresses (basic format validation)"
    ["192.168.1.1"; "10.0.0.1"; "172.16.254.1"].

Definition date_info : PatternRecord :=
  mkPatternRecord
    "^(0[1-9]|1[0-2])/(0[1-9]|[12][0-9]|3[01])/\d{4}$"
    "Matches dates in MM/DD/YYYY format"
    ["01/15/2024"; "12/31/2023"; "06/08/1990"].

(** The dictionary literal [common_patterns]; a Python dictionary iterates
    in insertion order, so it is kept as an association list. *)
Definition common_patterns : list (string * PatternRecord) :=
  [ ("email", email_info);
    ("phone", phone_info);
    ("url", url_info);
    ("ip", ip_info);
    ("date", date_info) ].

(** The list of variants built for one key inside the loop. *)
Definition variants (key : string) : list string :=
  [ key ++ " address"; key ++ " addresses"; key ++ " number"; key ++ " numbers" ].

(** The condition of the [if] inside the loop. *)
Definition key_matches (key desc_lower : string) : bool :=
  contains key desc_lower
  || existsb (fun variant => contains variant desc_lower) (variants key).

(** The [for key, pattern_info in common_patterns.items()] loop. *)
Fixpoint first_match (items : list (string * PatternRecord)) (desc_lower : string)
  : option PatternRecord :=
  match items with
  | [] => None
  | (key, pattern_info) :: rest =>
      if key_matches key desc_lower then Some pattern_info
      else first_match rest desc_lower
  end.

(** [RegexAI.check_common_patterns] *)
Definition check_common_patterns (description : string) : option PatternRecord :=
  let desc_lower := lower description in
  first_match common_patterns desc_lower.

(** ** The prompt builder *)

(** [RegexAI._build_prompt]: the f-string, line by line. *)
Definition _build_prompt (description : string) : string :=
  let line (text rest : string) : string := text ++ String nl rest in
  line ("You are a regex expert. Generate a precise, production-ready regular expression for: "
          ++ String dquote description ++ String dquote "")
  (line "Requirements:"
  (line "- Must be accurate and handle common edge cases"
  (line "- Should be efficient (avoid catastrophic backtracking)"
  (line "- Use standard regex syntax that works across languages"
  (line "- Focus on practical, real-world usage"
  (line ""
  (line "Respond in this EXACT format:"
  (line "PATTERN: [the regex pattern only]"
  (line "EXPLANATION: [clear explanation of what it matches]"
  (line "EXAMPLES: [3-5 realistic examples separated by |]"
  (line ""
  (line "Common reference patterns:"
  (line "- Email: ^[a-zA-Z0-9._%+-]+@[a-zA-Z0-9.-]+\.[a-zA-Z]{2,}$"
  (line "- Phone: ^\+?[1-9]\d{1,14}$"
  (line "- URL: ^https?:\/\/[^\s]+$"
  (line "- IPv4: ^(?:[0-9]{1,3}\.){3}[0-9]{1,3}$"
  (line "- Date (MM/DD/YYYY): ^(0[1-9]|1[0-2])\/(0[1-9]|[12][0-9]|3[01])\/\d{4}$"
  (line ""
  ("Generate for: " ++ description))))))))))))))))))).

(** ** The response parser *)

(** The three variables [pattern], [explanation], [examples] of
    [_parse_response]. *)
Definition parsed : Type := (string * string * list string)%type.

(** The list comprehension
    [[ex.strip() for ex in examples_text.split("|") if ex.strip()]]. *)
Definition split_examples (examples_text : string) : list string :=
  map strip (filter (fun ex => truthy (strip ex)) (split pipe examples_text)).

(** The body of the [for line in lines] loop. *)
Definition parse_line (acc : parsed) (line : string) : parsed :=
  let '(pattern, explanation, examples) := acc in
  let line := strip line in
  if startswith "PATTERN:" line then
    (strip (replace "PATTERN:" "" line), explanation, examples)
  else if startswith "EXPLANATION:" line then
    (pattern, strip (replace "EXPLANATION:" "" line), examples)
  else if startswith "EXAMPLES:" line then
    let examples_text := strip (replace "EXAMPLES:" "" line) in
    (pattern, explanation, split_examples examples_text)
  else acc.

(** [RegexAI._parse_response] *)
Definition _parse_response (result : string) : parsed :=
  let lines := split nl result in
  fold_left parse_line lines ("", "", []).

(** ** The pattern explainer: the list [components] *)

(** [if cond: components.append(text)] *)
Definition append_if (cond : bool) (text : string) (components : list string)
  : list string :=
  if cond then (components ++ [text])%list else components.

(** The list [components] built by [RegexAI._explain_pattern]. *)
Definition explain_components (pattern : string) : list string :=
  let components := [] in
  let components := append_if (contains "^" pattern) "^ = Start of string" components in
  let components := append_if (contains "$" pattern) "$ = End of string" components in
  let components :=
    append_if (contains "+" pattern) "+ = One or more of preceding element" components in
  let components :=
    append_if (contains "*" pattern) "* = Zero or more of preceding element" components in
  let components :=
    append_if (contains "?" pattern) "? = Zero or one of preceding element" components in
  let components :=
    append_if (contains "[" pattern && contains "]" pattern)
      "[] = Characters class (match any character inside)" components in
  let components := append_if (contains "\d" pattern) "\d = Any digit (0-9)" components in
  let components :=
    append_if (contains "\w" pattern) "\w = Any word character (a-z, A-Z, 0-9, _)" components in
  let components :=
    append_if (contains "\s" pattern) "\s = Any whitespace character" components in
  components.

(** ** Effects: console output, the chat-completion call, exceptions *)

(** The exceptions the program can meet. [SystemExit] is the only one that
    is not a subclass of [Exception]. *)
Inductive exn : Type :=
| AttributeError (msg : string)
| ReError (msg : string)
| SystemExit (code : nat)
| OtherException (msg : string).

(** [isinstance(e, Exception)] *)
Definition is_Exception (e : exn) : bool :=
  match e with SystemExit _ => false | _ => true end.

(** [isinstance(e, re.error)] *)
Definition is_re_error (e : exn) : bool :=
  match e with ReError _ => true | _ => false end.

(** [str(e)], the text an f-string shows for [{e}]. *)
Definition str_exn (e : exn) : string :=
  match e with
  | AttributeError msg => msg
  | ReError msg => msg
  | SystemExit code => NilEmpty.string_of_uint (Nat.to_uint code)
  | OtherException msg => msg
  end.

(** What a run leaves behind: the arguments of the [print] calls and the
    requests sent to [openai.chat.completions.create], in order. *)
Inductive event : Type :=
| Print (text : string)
| ChatCompletionRequest (model : string) (max_tokens : nat) (prompt : string).

Inductive outcome (A : Type) : Type :=
| Returned (a : A)
| Raised (e : exn).
Arguments Returned {A} a.
Arguments Raised {A} e.

(** A computation: its trace and how it ended. *)
Definition M (A : Type) : Type := (list event * outcome A)%type.

Definition ret {A} (a : A) : M A := ([], Returned a).

Definition bind {A B} (m : M A) (k : A -> M B) : M B :=
  match m with
  | (t, Returned a) => let '(t', o) := k a in ((t ++ t')%list, o)
  | (t, Raised e) => (t, Raised e)
  end.

Definition raise {A} (e : exn) : M A := ([], Raised e).

Definition print (text : string) : M unit := ([Print text], Returned tt).

(** [try: body except <class> as e: handler e] *)
Definition try_except {A} (body : M A) (catches : exn -> bool) (handler : exn -> M A)
  : M A :=
  match body with
  | (t, Raised e) =>
      if catches e then let '(t', o) := handler e in ((t ++ t')%list, o)
      else (t, Raised e)
  | done => done
  end.

Declare Scope py_scope.
Delimit Scope py_scope with py.
Notation "x <- m ;; k" := (bind m (fun x => k))
  (at level 61, m at next level, right associativity) : py_scope.
Notation "' pat <- m ;; k" := (bind m (fun x => match x with pat => k end))
  (at level 61, pat pattern, m at next level, right associativity) : py_scope.
Notation "m ;; k" := (bind m (fun _ => k))
  (at level 61, right associativity) : py_scope.
Open Scope py_scope.

(** [for x in xs: print(f x)] *)
Fixpoint print_each {A} (f : A -> string) (xs : list A) : M unit :=
  match xs with
  | [] => ret tt
  | x :: rest => print (f x) ;; print_each f rest
  end.

(** [text * n] *)
Fixpoint repeat_string (text : string) (n : nat) : string :=
  match n with
  | O => ""
  | S k => text ++ repeat_string text k
  end.

(** *** Attribute lookup on a [RegexAI] instance *)

(** The names bound on an instance: the methods the class defines and the
    attribute [__init__] sets. *)
Definition RegexAI_attributes : list string :=
  [ "__init__"; "generate"; "check_common_patterns"; "_build_prompt";
    "_parse_response"; "_display_result"; "_test_pattern"; "_explain_pattern";
    "api_key" ].

(** [self.<name>]: an [AttributeError] when the name is not bound. *)
Definition getattr (name : string) : M unit :=
  if existsb (String.eqb name) RegexAI_attributes then ret tt
  else raise (AttributeError ("'RegexAI' object has no attribute '" ++ name ++ "'")).

(** [self.<name>(...)]: the attribute is looked up, then the body bound to
    it runs. *)
Definition self_call {A} (name : string) (body : M A) : M A :=
  getattr name ;; body.

(** *** The host: the regular-expression engine and the chat service *)

(** A match object: [match.groups()] (a group that took no part in the
    match is [None]) and [match.group()]. *)
Record Match : Type := mkMatch {
  groups : list (option string);
  group : string
}.

(** What [re.search(pattern, string)] does: it raises, returns [None], or
    returns a match object. *)
Inductive search_result : Type :=
| SearchRaises (e : exn)
| SearchNone
| SearchMatch (m : Match).

(** What [openai.chat.completions.create(...)] followed by
    [response.choices[0].message.content] does: it raises, or yields the
    content, which may be [None]. *)
Inductive completion : Type :=
| CompletionRaises (e : exn)
| CompletionContent (content : option string).

(** The collaborators outside the repository. [repr_groups] is the text
    Python shows for the tuple [match.groups()]. *)
Class Host : Type := {
  re_search : string -> string -> search_result;
  repr_groups : list (option string) -> string;
  chat_completions_create : string -> completion
}.

(** The instance attributes. *)
Record RegexAI : Type := mkRegexAI { api_key : string }.

(** The parsed command line, [args]. *)
Record Args : Type := mkArgs {
  arg_description : string;
  arg_test : option string;
  arg_dry_run : bool;
  arg_explain : bool
}.

(** Truth value of an optional string ([None] and [""] are false). *)
Definition truthy_opt (s : option string) : bool :=
  match s with Some text => truthy text | None => false end.

Section Methods.

Context {host : Host}.

(** [RegexAI.__init__]; [env_api_key] is [os.getenv("OPENAI_API_KEY")]
    after [load_dotenv()]. *)
Definition __init__ (env_api_key : option string) : M RegexAI :=
  if negb (truthy_opt env_api_key) then
    print "❌ Error: OPENAI_API_KEY not found in environment" ;;
    print "💡 Create a .env file with: OPENAI_API_KEY=your_key_here" ;;
    raise (SystemExit 1)
  else
    ret (mkRegexAI (match env_api_key with Some k => k | None => "" end)).

(** [RegexAI._display_result] *)
Definition _display_result (pattern explanation : string) (examples : list string)
  : M unit :=
  print (String nl "🎯 Generated Regex:") ;;
  print ("   " ++ pattern) ;;
  (if truthy explanation then
     print (String nl "📝 Explanation:") ;;
     print ("   " ++ explanation)
   else ret tt) ;;
  (match examples with
   | [] => ret tt
   | _ =>
       print (String nl "✅ Example matches:") ;;
       print_each (fun example => "   - " ++ example) examples
   end).

(** [RegexAI._test_pattern] *)
Definition _test_pattern (pattern test_string : string) : M unit :=
  print (String nl "🧪 Testing: '" ++ test_string ++ "'") ;;
  try_except
    (match re_search pattern test_string with
     | SearchRaises e => raise e
     | SearchMatch m =>
         print "   ✅ Match found!" ;;
         (match groups m with
          | [] => ret tt
          | _ => print ("   📋 Captured groups: " ++ repr_groups (groups m))
          end) ;;
         print ("   🎯 Matched text: '" ++ group m ++ "'")
     | SearchNone => print "   ❌ No match found"
     end)
    is_re_error
    (fun e => print ("   ❌ Invalid regex pattern: " ++ str_exn e)).

(** [RegexAI._explain_pattern] *)
Definition _explain_pattern (pattern : string) : M unit :=
  print (String nl "🔍 Pattern Breakdown:") ;;
  print ("   Pattern: " ++ pattern) ;;
  let components := explain_components pattern in
  print_each (fun component => "   - " ++ component) components.

(** Lines 52 to 64 of [RegexAI.generate]: what is done with the content of
    the response. *)
Definition generate_from_content (content : string) (test_string : option string)
    (explain : bool) : M unit :=
  let result := strip content in
  '(pattern, explanation, examples) <-
     self_call "_parse_response" (ret (_parse_response result)) ;;
  if truthy pattern then
    self_call "_display_result" (_display_result pattern explanation examples) ;;
    (match test_string with
     | Some sample =>
         if truthy sample then self_call "_test_pattern" (_test_pattern pattern sample)
         else ret tt
     | None => ret tt
     end) ;;
    (if explain then self_call "_explain_pattern" (_explain_pattern pattern)
     else ret tt)
  else
    print "❌ Failed to generate valid regex pattern".

(** Lines 44 to 66 of [RegexAI.generate]: the [try] statement. *)
Definition generate_with_model (prompt : string) (test_string : option string)
    (explain : bool) : M unit :=
  try_except
    (content <-
       (([ChatCompletionRequest "gpt-4" 400 prompt],
         match chat_completions_create prompt with
         | CompletionRaises e => Raised e
         | CompletionContent (Some content) => Returned content
         | CompletionContent None =>
             Raised (AttributeError "'NoneType' object has no attribute 'strip'")
         end) : M string) ;;
     generate_from_content content test_string explain)
    is_Exception
    (fun e => print ("❌ Error generating regex: " ++ str_exn e)).

(** [RegexAI.generate]. The method calls are written as in the source:
    [self._check_common_patterns] and [self._buil_prompt] are the names
    line 20 and line 33 look up. *)
Definition generate (description : string) (test_string : option string)
    (dry_run explain : bool) : M unit :=
  common_pattern <-
    self_call "_check_common_patterns" (ret (check_common_patterns description)) ;;
  match common_pattern, dry_run with
  | Some info, false =>
      self_call "_display_result"
        (_display_result (pattern info) (explanation info) (examples info)) ;;
      print "💡 Found in common patterns database!" ;;
      (match test_string with
       | Some sample =>
           if truthy sample
           then self_call "_test_pattern" (_test_pattern (pattern info) sample)
           else ret tt
       | None => ret tt
       end)
  | _, _ =>
      prompt <- self_call "_buil_prompt" (ret (_build_prompt description)) ;;
      if dry_run then
        print ("🔍 Prompt that would be sent to AI:" ++ String nl "") ;;
        print (repeat_string "=" 50) ;;
        print prompt ;;
        print (repeat_string "=" 50)
      else
        print ("🤖 Generating regex for: " ++ description) ;;
        generate_with_model prompt test_string explain
  end.

(** [main], after [parser.parse_args()]. *)
Definition main (env_api_key : option string) (args : Args) : M unit :=
  print "🚀 RegexAI - English to Regex Generator" ;;
  print (repeat_string "=" 40) ;;
  regexai <- __init__ env_api_key ;;
  generate (arg_description args) (arg_test args) (arg_dry_run args) (arg_explain args).

End Methods.

(** ** The catalog as objects in a store

    Every call of [check_common_patterns] evaluates the dictionary literal
    again: it creates five inner dictionaries and returns a reference to one
    of them. The store holds the inner dictionaries; an address is a
    position in it. *)

Module Store.

Definition addr : Type := nat.
Definition heap : Type := list PatternRecord.

(** A new object is placed after the existing ones. *)
Definition alloc (r : PatternRecord) (h : heap) : heap * addr :=
  ((h ++ [r])%list, List.length h).

(** Reading an object. *)
Definition deref (h : heap) (a : addr) : option PatternRecord := nth_error h a.

(** Evaluation of the dictionary literal, entry by entry. *)
Fixpoint build (entries : list (string * PatternRecord)) (h : heap)
  : heap * list (string * addr) :=
  match entries with
  | [] => (h, [])
  | (key, r) :: rest =>
      let '(h1, a) := alloc r h in
      let '(h2, items) := build rest h1 in
      (h2, (key, a) :: items)
  end.

(** The loop over [common_patterns.items()], on references. *)
Fixpoint first_match_ref (items : list (string * addr)) (desc_lower : string)
  : option addr :=
  match items with
  | [] => None
  | (key, a) :: rest =>
      if key_matches key desc_lower then Some a
      else first_match_ref rest desc_lower
  end.

(** [RegexAI.check_common_patterns] on the store: the new store and the
    reference returned ([None] when no key matches). *)
Definition check_common_patterns (description : string) (h : heap)
  : heap * option addr :=
  let '(h', catalog) := build common_patterns h in
  let desc_lower := lower description in
  (h', first_match_ref catalog desc_lower).

(** The record a returned reference stands for. *)
Definition read (h : heap) (r : option addr) : option PatternRecord :=
  match r with
  | Some a => deref h a
  | None => None
  end.

End Store.

(** ** Definitions that follow the specification's wording *)

(** [needle] occurs in [hay]. *)
Definition Substring (needle hay : string) : Prop :=
  exists before after, hay = before ++ needle ++ after.

(** A key matches a lower-cased description: the key occurs in it, or one
    of the four phrases does. *)
Definition KeyMatches (key desc_lower : string) : Prop :=
  Substring key desc_lower
  \/ Substring (key ++ " address") desc_lower
  \/ Substring (key ++ " addresses") desc_lower
  \/ Substring (key ++ " number") desc_lower
  \/ Substring (key ++ " numbers") desc_lower.

(** The keys-only lookup: the record of the first key that occurs in the
    lower-cased description. *)
Definition lookup_keys_only (description : string) : option PatternRecord :=
  option_map snd
    (find (fun entry => contains (fst entry) (lower description)) common_patterns).

(** The explainer's checklist: a containment test and the line it
    contributes, in order. *)
Definition checklist : list ((string -> bool) * string) :=
  [ (contains "^", "^ = Start of string");
    (contains "$", "$ = End of string");
    (contains "+", "+ = One or more of preceding element");
    (contains "*", "* = Zero or more of preceding element");
    (contains "?", "? = Zero or one of preceding element");
    (fun p => contains "[" p && contains "]" p,
     "[] = Characters class (match any character inside)");
    (contains "\d", "\d = Any digit (0-9)");
    (contains "\w", "\w = Any word character (a-z, A-Z, 0-9, _)");
    (contains "\s", "\s = Any whitespace character") ].

(** The lines of the checklist whose test holds of the pattern. *)
Definition explain_by_checklist (pattern : string) : list string :=
  map snd (filter (fun item => fst item pattern) checklist).

(** The remainder of a line after a prefix it starts with. *)
Fixpoint remainder_after (prefix_text line : string) : string :=
  match prefix_text, line with
  | String _ p, String _ l => remainder_after p l
  | _, _ => line
  end.

(** The parser as the specification words it: the field is the trimmed
    remainder of the line after the prefix. *)
Definition parse_line_by_remainder (acc : parsed) (line : string) : parsed :=
  let '(pattern, explanation, examples) := acc in
  let line := strip line in
  if startswith "PATTERN:" line then
    (strip (remainder_after "PATTERN:" line), explanation, examples)
  else if startswith "EXPLANATION:" line then
    (pattern, strip (remainder_after "EXPLANATION:" line), examples)
  else if startswith "EXAMPLES:" line then
    (pattern, explanation, split_examples (strip (remainder_after "EXAMPLES:" line)))
  else acc.

Definition parse_by_remainder (result : string) : parsed :=
  fold_left parse_line_by_remainder (split nl result) ("", "", []).

(** The prefix occurs again in what follows it. *)
Definition recurs (p line : string) : bool :=
  startswith p line && contains p (remainder_after p line).

(** No line repeats its own prefix. *)
Definition no_recurrence (line : string) : Prop :=
  recurs "PATTERN:" (strip line) = false
  /\ recurs "EXPLANATION:" (strip line) = false
  /\ recurs "EXAMPLES:" (strip line) = false.

(** ** A host for concrete runs

    An engine that rejects the pattern [(] as [re] does and reads every
    other pattern as literal text without groups, and a chat service that
    answers with a fixed text. *)

Definition literal_search (pattern text : string) : search_result :=
  if String.eqb pattern "(" then
    SearchRaises (ReError "missing ), unterminated subpattern at position 0")
  else if contains pattern text then SearchMatch (mkMatch [] pattern)
  else SearchNone.

Definition literal_host : Host :=
  {| re_search := literal_search;
     repr_groups := fun _ => "()";
     chat_completions_create := fun _ => CompletionContent (Some "no recognizable lines") |}.

(** ** Hosts that fail

    [failing_host]: the engine raises an exception that is not [re.error]
    (as [re] does with [OverflowError] for a repetition count that is too
    large) and the chat service raises a transport error.
    [empty_content_host]: the chat service answers with no content. *)

Definition failing_host : Host :=
  {| re_search := fun _ _ => SearchRaises (OtherException "the repetition number is too large");
     repr_groups := fun _ => "()";
     chat_completions_create := fun _ => CompletionRaises (OtherException "Connection error.") |}.

Definition empty_content_host : Host :=
  {| re_search := literal_search;
     repr_groups := fun _ => "()";
     chat_completions_create := fun _ => CompletionContent None |}.

(** A chat service that answers with a pattern, and an engine that raises
    an exception that is not [re.error] on every search. *)
Definition overflow_host : Host :=
  {| re_search := fun _ _ => SearchRaises (OtherException "the repetition number is too large");
     repr_groups := fun _ => "()";
     chat_completions_create := fun _ => CompletionContent (Some "PATTERN: a{4294967296}") |}.

(** A chat service that answers with the pattern [(], which the engine of
    [literal_host] rejects with [re.error]. *)
Definition paren_host : Host :=
  {| re_search := literal_search;
     repr_groups := fun _ => "()";
     chat_completions_create := fun _ => CompletionContent (Some "PATTERN: (") |}.

(** ** Vocabulary of the further properties *)

(** The event is a [print] call. *)
Definition is_print (e : event) : bool :=
  match e with Print _ => true | ChatCompletionRequest _ _ _ => false end.

(** A computation whose trace holds [print] calls only. *)
Definition prints_only {A} (m : M A) : Prop := forallb is_print (fst m) = true.

(** A computation that does not end with an exception of class
    [Exception]. *)
Definition no_Exception_escapes {A} (m : M A) : Prop :=
  match snd m with
  | Returned _ => True
  | Raised e => is_Exception e = false
  end.

(** Every character of the text passes the test. *)
Fixpoint all_chars (ok : ascii -> bool) (s : string) : bool :=
  match s with
  | EmptyString => true
  | String c t => ok c && all_chars ok t
  end.

(** The text has no pipe character. *)
Definition pipe_free (s : string) : bool :=
  all_chars (fun c => negb (Ascii.eqb c pipe)) s.

(** The text has no newline character. *)
Definition newline_free (s : string) : bool :=
  all_chars (fun c => negb (Ascii.eqb c nl)) s.

(** An example as the parser leaves it: not empty, trimmed, without a
    pipe. *)
Definition clean_example (ex : string) : Prop :=
  ex <> "" /\ strip ex = ex /\ pipe_free ex = true.

(** The fixed text of the prompt before the first occurrence of the
    description, and the fixed text between its two occurrences. *)
Definition prompt_opening : string :=
  "You are a regex expert. Generate a precise, production-ready regular expression for: "
  ++ String dquote "".

Definition prompt_instructions : string :=
  substring (String.length prompt_opening)
    (String.length (_build_prompt "") - String.length prompt_opening)
    (_build_prompt "").

(** What holds of the three fields of the parser after every line. *)
Definition fields_clean (acc : parsed) : Prop :=
  (strip (fst (fst acc)) = fst (fst acc) /\ newline_free (fst (fst acc)) = true)
  /\ (strip (snd (fst acc)) = snd (fst acc) /\ newline_free (snd (fst acc)) = true)
  /\ Forall (fun ex => clean_example ex /\ newline_free ex = true) (snd acc).

(** The loop of [_parse_response] over a list of lines. *)
Definition parse_lines (lines : list string) : parsed :=
  fold_left parse_line lines ("", "", []).

(** * Properties *)

(** ** Strings *)

Lemma append_nil_r (s : string) : s ++ "" = s.
Proof. induction s as [|c s IH]; simpl; [reflexivity | now rewrite IH]. Qed.

Lemma append_assoc (a b c : string) : (a ++ b) ++ c = a ++ (b ++ c).
Proof. induction a as [|x a IH]; simpl; [reflexivity | now rewrite IH]. Qed.

Lemma prefix_iff (p s : string) :
  prefix p s = true <-> exists rest, s = p ++ rest.
Proof.
  revert s; induction p as [|c p IH]; intros s.
  - split; [intros _; exists s; reflexivity | intros _; destruct s; reflexivity].
  - destruct s as [|d s]; simpl.
    + split; [discriminate | intros [rest H]; discriminate].
    + destruct (ascii_dec c d) as [->|Hne].
      * rewrite IH. split; intros [rest H]; exists rest.
        -- now rewrite H.
        -- now injection H.
      * split; [discriminate | intros [rest H]; injection H; congruence].
Qed.

Lemma contains_iff (needle hay : string) :
  contains needle hay = true <-> Substring needle hay.
Proof.
  unfold Substring. induction hay as [|c hay IH].
  - cbn [contains]. rewrite prefix_iff. split.
    + intros [rest H]. exists "", rest. exact H.
    + intros [before [after H]]. destruct before; [now exists after | discriminate].
  - cbn [contains]. rewrite orb_true_iff, IH, prefix_iff. split.
    + intros [[rest H] | [before [after H]]].
      * exists "", rest. exact H.
      * exists (String c before), after. simpl. now rewrite H.
    + intros [[|d before] [after H]].
      * left. now exists after.
      * right. exists before, after. simpl in H. now injection H.
Qed.

Lemma contains_false_iff (needle hay : string) :
  contains needle hay = false <-> ~ Substring needle hay.
Proof.
  rewrite <- contains_iff. destruct (contains needle hay); split; congruence.
Qed.

(** A text that contains a phrase contains every beginning of the phrase. *)
Lemma Substring_shorten (key tail hay : string) :
  Substring (key ++ tail) hay -> Substring key hay.
Proof.
  intros [before [after H]]. exists before, (tail ++ after).
  now rewrite H, append_assoc.
Qed.

Lemma lower_app (a b : string) : lower (a ++ b) = lower a ++ lower b.
Proof. induction a as [|c a IH]; simpl; [reflexivity | now rewrite IH]. Qed.

(** Lower-casing keeps an occurrence of a text that is already lower-case. *)
Lemma Substring_lower (needle hay : string) :
  lower needle = needle -> Substring needle hay -> Substring needle (lower hay).
Proof.
  intros Hn [before [after H]]. exists (lower before), (lower after).
  now rewrite H, !lower_app, Hn.
Qed.

(** ** The catalog lookup *)

Lemma key_matches_iff (key desc_lower : string) :
  key_matches key desc_lower = true <-> KeyMatches key desc_lower.
Proof.
  unfold key_matches, KeyMatches, variants. cbn [existsb].
  rewrite orb_false_r, !orb_true_iff, !contains_iff. tauto.
Qed.

(** The four phrases add nothing: each of them contains its key. *)
Lemma key_matches_key_only (key desc_lower : string) :
  key_matches key desc_lower = contains key desc_lower.
Proof.
  apply eq_true_iff_eq. rewrite key_matches_iff, contains_iff.
  unfold KeyMatches. split; [| tauto].
  intros [H | [H | [H | [H | H]]]]; eauto using Substring_shorten.
Qed.

Lemma first_match_Some (items : list (string * PatternRecord)) (s : string)
    (info : PatternRecord) :
  first_match items s = Some info <->
  exists earlier key later,
    items = (earlier ++ (key, info) :: later)%list
    /\ KeyMatches key s
    /\ Forall (fun entry => ~ KeyMatches (fst entry) s) earlier.
Proof.
  induction items as [|[k r] items IH]; simpl.
  - split; [discriminate |].
    intros [[|e earlier] [key [later [H _]]]]; discriminate.
  - destruct (key_matches k s) eqn:Hk.
    + apply key_matches_iff in Hk. split.
      * intros [= ->]. exists [], k, items. auto.
      * intros [[|e earlier] [key [later [H [Hm Hno]]]]].
        -- now injection H as _ <- _.
        -- injection H as <- _. inversion Hno; subst. simpl in *. contradiction.
    + assert (Hnk : ~ KeyMatches k s)
        by (rewrite <- key_matches_iff, Hk; discriminate).
      rewrite IH. split.
      * intros [earlier [key [later [H [Hm Hno]]]]].
        exists ((k, r) :: earlier), key, later. subst items. auto.
      * intros [[|e earlier] [key [later [H [Hm Hno]]]]].
        -- injection H as <- _ _. contradiction.
        -- injection H as _ ->. inversion Hno; subst.
           exists earlier, key, later. auto.
Qed.

Lemma first_match_None (items : list (string * PatternRecord)) (s : string) :
  first_match items s = None <->
  Forall (fun entry => ~ KeyMatches (fst entry) s) items.
Proof.
  induction items as [|[k r] items IH]; simpl.
  - split; auto.
  - destruct (key_matches k s) eqn:Hk.
    + apply key_matches_iff in Hk. split; [discriminate |].
      intros H. inversion H; subst. simpl in *. contradiction.
    + rewrite IH. split.
      * intros H. constructor; [| exact H].
        simpl. rewrite <- key_matches_iff, Hk. discriminate.
      * intros H. now inversion H.
Qed.

(** C1. The lookup lower-cases the description, walks the keys in the
    order email, phone, url, ip, date, and returns the record of the first
    key that occurs in the lower-cased description either by itself or in
    one of the four phrases; it returns nothing exactly when no key
    matches. *)
Theorem check_common_patterns_first_match (description : string) :
  map fst common_patterns = ["email"; "phone"; "url"; "ip"; "date"]
  /\ (forall info,
        check_common_patterns description = Some info <->
        exists earlier key later,
          common_patterns = (earlier ++ (key, info) :: later)%list
          /\ KeyMatches key (lower description)
          /\ Forall (fun entry => ~ KeyMatches (fst entry) (lower description)) earlier)
  /\ (check_common_patterns description = None <->
      Forall (fun entry => ~ KeyMatches (fst entry) (lower description)) common_patterns).
Proof.
  split; [reflexivity |]. split.
  - intros info. apply first_match_Some.
  - apply first_match_None.
Qed.

Lemma first_match_find (items : list (string * PatternRecord)) (s : string) :
  first_match items s
  = option_map snd (find (fun entry => contains (fst entry) s) items).
Proof.
  induction items as [|[k r] items IH]; simpl; [reflexivity |].
  rewrite key_matches_key_only. destruct (contains k s); [reflexivity | exact IH].
Qed.

(** C10. The phrase checks are redundant: the lookup equals the keys-only
    lookup, and it finds a record exactly when one of the five keys occurs
    in the lower-cased description. *)
Theorem check_common_patterns_keys_only (description : string) :
  check_common_patterns description = lookup_keys_only description
  /\ (check_common_patterns description <> None <->
      Exists (fun key => Substring key (lower description))
        ["email"; "phone"; "url"; "ip"; "date"]).
Proof.
  split; [apply first_match_find |].
  unfold check_common_patterns. rewrite first_match_find.
  set (s := lower description). simpl.
  rewrite !Exists_cons, Exists_nil, <- !contains_iff.
  destruct (contains "email" s); [simpl; intuition congruence |].
  destruct (contains "phone" s); [simpl; intuition congruence |].
  destruct (contains "url" s); [simpl; intuition congruence |].
  destruct (contains "ip" s); [simpl; intuition congruence |].
  destruct (contains "date" s); simpl; intuition congruence.
Qed.

(** The claim about phone numbers fails twice: [telephone] contains the key
    [phone], so the lookup finds the phone record; and a description that
    contains [phone number] after the word [email] gets the email record. *)
Lemma phone_claim_counterexample :
  check_common_patterns "telephone" = Some phone_info
  /\ Substring "phone number" "email or phone number"
  /\ check_common_patterns "email or phone number" = Some email_info
  /\ email_info <> phone_info.
Proof.
  split; [reflexivity |]. split; [| split; [reflexivity | discriminate]].
  now exists "email or ", "".
Qed.

(** C5, amended. A description that contains [phone number] or
    [phone numbers], and whose lower-cased form does not contain [email],
    gets the phone record; so does the description [telephone], which
    contains the key [phone]. *)
Theorem phone_number_lookup :
  (forall description,
     Substring "phone number" description \/ Substring "phone numbers" description ->
     ~ Substring "email" (lower description) ->
     check_common_patterns description = Some phone_info)
  /\ check_common_patterns "telephone" = Some phone_info.
Proof.
  split; [| reflexivity].
  intros description Hphone Hemail.
  assert (Hp : Substring "phone" (lower description)).
  { destruct Hphone as [H | H];
      apply (Substring_lower _ _ eq_refl) in H;
      [apply (Substring_shorten "phone" " number") | apply (Substring_shorten "phone" " numbers")];
      exact H. }
  unfold check_common_patterns, common_patterns. cbn [first_match].
  rewrite !key_matches_key_only.
  apply contains_false_iff in Hemail. apply contains_iff in Hp.
  now rewrite Hemail, Hp.
Qed.

Lemma phone_number_lookup_witness :
  check_common_patterns "My phone number, Please" = Some phone_info.
Proof.
  apply (proj1 phone_number_lookup).
  - left. now exists "My ", ", Please".
  - apply contains_false_iff. reflexivity.
Defined.

(** ** The catalog in the store *)

Lemma build_read (entries : list (string * PatternRecord)) :
  forall (h : Store.heap),
    fst (Store.build entries h) = (h ++ map snd entries)%list
    /\ forall (ext : Store.heap) (s : string),
         Store.read (fst (Store.build entries h) ++ ext)%list
           (Store.first_match_ref (snd (Store.build entries h)) s)
         = first_match entries s.
Proof.
  induction entries as [|[k r] entries IH]; intros h.
  - simpl. split; [now rewrite app_nil_r | reflexivity].
  - cbn [Store.build Store.alloc].
    destruct (IH (h ++ [r])%list) as [Hheap Hread].
    destruct (Store.build entries (h ++ [r])%list) as [h2 items] eqn:Hb.
    cbn [fst snd] in *. split.
    + rewrite Hheap, <- app_assoc. reflexivity.
    + intros ext s. cbn [Store.first_match_ref first_match].
      destruct (key_matches k s); [| apply Hread].
      cbn [Store.read]. unfold Store.deref.
      rewrite Hheap, <- !app_assoc.
      rewrite nth_error_app2 by lia. now rewrite Nat.sub_diag.
Qed.

Lemma store_lookup_heap (description : string) (h : Store.heap) :
  fst (Store.check_common_patterns description h)
  = (h ++ map snd common_patterns)%list.
Proof.
  unfold Store.check_common_patterns.
  pose proof (proj1 (build_read common_patterns h)) as H.
  destruct (Store.build common_patterns h). exact H.
Qed.

Lemma store_lookup_read (description : string) (h ext : Store.heap) :
  Store.read (fst (Store.check_common_patterns description h) ++ ext)%list
    (snd (Store.check_common_patterns description h))
  = check_common_patterns description.
Proof.
  unfold Store.check_common_patterns, check_common_patterns.
  pose proof (proj2 (build_read common_patterns h) ext (lower description)) as H.
  destruct (Store.build common_patterns h). exact H.
Qed.

(** C9. Two calls of the lookup with the same description return
    references to equal records, the record the first call returned is
    still the same after the second call, and a call leaves every object
    that was in the store before it as it was: it only adds the objects of
    its own dictionary literal. *)
Theorem check_common_patterns_idempotent (description : string) (h : Store.heap) :
  let first := Store.check_common_patterns description h in
  let second := Store.check_common_patterns description (fst first) in
  Store.read (fst first) (snd first) = check_common_patterns description
  /\ Store.read (fst second) (snd second) = Store.read (fst first) (snd first)
  /\ Store.read (fst second) (snd first) = Store.read (fst first) (snd first)
  /\ firstn (List.length h) (fst first) = h
  /\ firstn (List.length (fst first)) (fst second) = fst first.
Proof.
  intros first second.
  pose proof (store_lookup_read description h []) as R1.
  pose proof (store_lookup_read description (fst first) []) as R2.
  pose proof (store_lookup_read description h (map snd common_patterns)) as R12.
  rewrite app_nil_r in R1, R2. fold first in R1, R12. fold second in R2.
  assert (H2 : fst second = (fst first ++ map snd common_patterns)%list)
    by apply store_lookup_heap.
  assert (H1 : fst first = (h ++ map snd common_patterns)%list)
    by apply store_lookup_heap.
  repeat split.
  - exact R1.
  - now rewrite R2, R1.
  - now rewrite H2, R12, R1.
  - rewrite H1. rewrite firstn_app, Nat.sub_diag, firstn_all. simpl. apply app_nil_r.
  - rewrite H2. rewrite firstn_app, Nat.sub_diag, firstn_all. simpl. apply app_nil_r.
Qed.

(** ** The pattern explainer *)

Lemma append_if_app (cond : bool) (text : string) (components : list string) :
  append_if cond text components
  = (components ++ (if cond then [text] else []))%list.
Proof. destruct cond; simpl; [reflexivity | now rewrite app_nil_r]. Qed.

Lemma explain_components_filter (pattern : string) :
  explain_components pattern = explain_by_checklist pattern.
Proof.
  unfold explain_components, explain_by_checklist, checklist.
  rewrite !append_if_app. cbn [filter map fst snd app].
  destruct (contains "^" pattern), (contains "$" pattern), (contains "+" pattern),
    (contains "*" pattern), (contains "?" pattern),
    (contains "[" pattern && contains "]" pattern),
    (contains "\d" pattern), (contains "\w" pattern), (contains "\s" pattern);
    reflexivity.
Qed.

Lemma NoDup_map_filter {A B} (g : A -> B) (f : A -> bool) (l : list A) :
  NoDup (map g l) -> NoDup (map g (filter f l)).
Proof.
  induction l as [|a l IH]; simpl; intros H; [constructor |].
  inversion H as [|? ? Hnotin Hrest]; subst.
  destruct (f a); simpl; [| auto].
  constructor; [| auto].
  intros Hin. apply Hnotin.
  apply in_map_iff in Hin as [x [Hx Hf]]. apply filter_In in Hf as [Hf _].
  apply in_map_iff. eauto.
Qed.

Lemma NoDup_checklist_lines : NoDup (map snd checklist).
Proof.
  unfold checklist. cbn [map snd].
  repeat (constructor; [cbn [In]; intuition discriminate |]). constructor.
Qed.

(** In a list whose second components are all different, the second
    component fixes the entry. *)
Lemma NoDup_snd_inj {A B} (l : list (A * B)) (a a' : A) (b : B) :
  NoDup (map snd l) -> In (a, b) l -> In (a', b) l -> a = a'.
Proof.
  induction l as [|[x y] l IH]; simpl; intros H H1 H2; [contradiction |].
  inversion H as [|? ? Hnotin Hrest]; subst.
  destruct H1 as [H1 | H1], H2 as [H2 | H2].
  - congruence.
  - injection H1 as -> ->. exfalso. apply Hnotin.
    change b with (snd (a', b)). now apply in_map.
  - injection H2 as -> ->. exfalso. apply Hnotin.
    change b with (snd (a, b)). now apply in_map.
  - auto.
Qed.

Lemma print_each_trace {A} (f : A -> string) (xs : list A) :
  print_each f xs = (map (fun x => Print (f x)) xs, Returned tt).
Proof.
  induction xs as [|x xs IH]; [reflexivity |].
  cbn [print_each map]. rewrite IH. reflexivity.
Qed.

(** C4. The explainer walks the fixed checklist
    [^], [$], [+], [*], [?], the pair of brackets, [\d], [\w], [\s]:
    its lines are the lines of the entries whose containment test holds,
    in checklist order; no line occurs twice; a line is present exactly
    when its test holds; the lines are what is printed after the two
    heading lines; and for the email pattern the lines are those of
    [^], [$], [+] and the brackets, and no other. *)
Theorem explain_pattern_checklist (pattern : string) :
  explain_components pattern = explain_by_checklist pattern
  /\ NoDup (explain_components pattern)
  /\ (forall test line,
        In (test, line) checklist ->
        (In line (explain_components pattern) <-> test pattern = true))
  /\ (forall host : Host,
        _explain_pattern pattern
        = (Print (String nl "🔍 Pattern Breakdown:")
             :: Print ("   Pattern: " ++ pattern)
             :: map (fun component => Print ("   - " ++ component))
                  (explain_components pattern),
           Returned tt))
  /\ explain_components "^[a-zA-Z0-9._%+-]+@[a-zA-Z0-9.-]+\.[a-zA-Z]{2,}$"
     = [ "^ = Start of string";
         "$ = End of string";
         "+ = One or more of preceding element";
         "[] = Characters class (match any character inside)" ].
Proof.
  split; [apply explain_components_filter |].
  rewrite explain_components_filter. split; [| split; [| split]].
  - apply NoDup_map_filter, NoDup_checklist_lines.
  - intros test line Hin. unfold explain_by_checklist. rewrite in_map_iff. split.
    + intros [[test' line'] [Hline Hf]]. simpl in Hline. subst line'.
      apply filter_In in Hf as [Hin' Htest]. simpl in Htest.
      now rewrite (NoDup_snd_inj _ _ _ _ NoDup_checklist_lines Hin Hin').
    + intros Htest. exists (test, line). split; [reflexivity |].
      apply filter_In. auto.
  - intros host. unfold _explain_pattern. rewrite print_each_trace.
    rewrite explain_components_filter. reflexivity.
  - reflexivity.
Qed.

Lemma explain_pattern_checklist_witness :
  In "+ = One or more of preceding element" (explain_components "a+b")
  <-> contains "+" "a+b" = true.
Proof.
  apply (proj1 (proj2 (proj2 (explain_pattern_checklist "a+b")))).
  unfold checklist. cbn [In]. auto.
Defined.

(** ** The response parser *)

(** C3. On a line that starts with a prefix and contains the same prefix
    again, the parser does not keep the remainder of the line: [replace]
    deletes every occurrence of the prefix. The first input is a pattern
    line, the second an examples line; a text without any prefix still
    gives three empty fields. *)
Theorem parse_response_prefix_inside_line :
  _parse_response "PATTERN: aPATTERN:b" = ("ab", "", [])
  /\ parse_by_remainder "PATTERN: aPATTERN:b" = ("aPATTERN:b", "", [])
  /\ _parse_response "EXAMPLES: a|EXAMPLES:b" = ("", "", ["a"; "b"])
  /\ parse_by_remainder "EXAMPLES: a|EXAMPLES:b" = ("", "", ["a"; "EXAMPLES:b"])
  /\ _parse_response "no recognizable lines" = ("", "", []).
Proof. repeat split; vm_compute; reflexivity. Qed.

Lemma split_nonempty (sep : ascii) (s : string) : split sep s <> [].
Proof.
  destruct s as [|c s]; cbn [split]; [discriminate |].
  destruct (Ascii.eqb c sep); [discriminate |].
  destruct (split sep s); discriminate.
Qed.

Lemma split_app_sep (sep : ascii) (a b : string) :
  split sep (a ++ String sep b) = (split sep a ++ split sep b)%list.
Proof.
  induction a as [|c a IH]; cbn [append split].
  - now rewrite Ascii.eqb_refl.
  - rewrite IH. destruct (Ascii.eqb c sep); [reflexivity |].
    pose proof (split_nonempty sep a) as Hne.
    destruct (split sep a); [congruence | reflexivity].
Qed.

(** Parsing a response followed by a newline and further text continues
    the loop over the further lines from the fields of the first part. *)
Lemma parse_response_app (earlier later : string) :
  _parse_response (earlier ++ String nl later)
  = fold_left parse_line (split nl later) (_parse_response earlier).
Proof.
  unfold _parse_response. now rewrite split_app_sep, fold_left_app.
Qed.

Lemma replace_from_skip (old new x rest : string) :
  replace_from old new (x ++ rest) (String.length x) = replace_from old new rest 0.
Proof. induction x as [|c x IH]; [reflexivity | exact IH]. Qed.

Lemma replace_from_absent (old new s : string) :
  contains old s = false -> replace_from old new s 0 = s.
Proof.
  induction s as [|c s IH]; [reflexivity |].
  cbn [contains replace_from]. intros H.
  apply orb_false_iff in H as [Hp Hc]. rewrite Hp, IH; auto.
Qed.

(** Deleting a prefix by [replace] gives the remainder when the remainder
    does not contain the prefix. *)
Lemma replace_prefix_once (old rest : string) :
  old <> "" -> contains old rest = false -> replace old "" (old ++ rest) = rest.
Proof.
  intros Hold Hrest. destruct old as [|c o]; [congruence |].
  unfold replace. cbn [append replace_from].
  assert (Hp : prefix (String c o) (String c (o ++ rest)) = true)
    by (apply prefix_iff; now exists rest).
  rewrite Hp.
  replace (String.length (String c o) - 1) with (String.length o)
    by (cbn [String.length]; lia).
  rewrite replace_from_skip. cbn [append]. now apply replace_from_absent.
Qed.

Lemma remainder_after_app (p rest : string) : remainder_after p (p ++ rest) = rest.
Proof. induction p as [|c p IH]; [now destruct rest | exact IH]. Qed.

Lemma replace_remainder (p line : string) :
  p <> "" -> startswith p line = true -> recurs p line = false ->
  replace p "" line = remainder_after p line.
Proof.
  unfold recurs. intros Hp Hs Hr. rewrite Hs in Hr. simpl in Hr.
  apply prefix_iff in Hs as [rest ->].
  rewrite remainder_after_app in *. now apply replace_prefix_once.
Qed.

Lemma parse_line_agrees (acc : parsed) (line : string) :
  recurs "PATTERN:" (strip line) = false ->
  recurs "EXPLANATION:" (strip line) = false ->
  recurs "EXAMPLES:" (strip line) = false ->
  parse_line acc line = parse_line_by_remainder acc line.
Proof.
  intros H1 H2 H3. destruct acc as [[pat expl] exs].
  unfold parse_line, parse_line_by_remainder.
  destruct (startswith "PATTERN:" (strip line)) eqn:E1.
  { rewrite replace_remainder; auto; discriminate. }
  destruct (startswith "EXPLANATION:" (strip line)) eqn:E2.
  { rewrite replace_remainder; auto; discriminate. }
  destruct (startswith "EXAMPLES:" (strip line)) eqn:E3.
  { rewrite replace_remainder; auto; discriminate. }
  reflexivity.
Qed.

(** On a response none of whose lines repeats its own prefix, the parser
    gives each field the trimmed remainder of its line. *)
Lemma parse_response_agrees (result : string) :
  Forall no_recurrence (split nl result) ->
  _parse_response result = parse_by_remainder result.
Proof.
  unfold _parse_response, parse_by_remainder.
  generalize (("", "", []) : parsed). induction (split nl result) as [|line lines IH].
  - reflexivity.
  - intros acc H. inversion H as [|? ? [H1 [H2 H3]] Hrest]; subst.
    cbn [fold_left]. rewrite parse_line_agrees by assumption. now apply IH.
Qed.

Lemma parse_response_agrees_witness :
  _parse_response
    ("PATTERN: ^a$" ++ String nl ("EXPLANATION: matches a" ++ String nl "EXAMPLES: a|aa"))
  = ("^a$", "matches a", ["a"; "aa"]).
Proof.
  rewrite parse_response_agrees; [reflexivity |].
  repeat constructor.
Defined.

(** ** The pattern tester *)

(** The claim that every compilation failure is reported fails: for the
    pattern [a{4294967296}] the engine raises [OverflowError], which is
    not [re.error]; the tester has printed its heading and the exception
    leaves it. *)
Lemma test_pattern_overflow_counterexample :
  re_search (Host := failing_host) "a{4294967296}" "abc"
  = SearchRaises (OtherException "the repetition number is too large")
  /\ _test_pattern (host := failing_host) "a{4294967296}" "abc"
     = ([Print (String nl "🧪 Testing: '" ++ "abc" ++ "'")],
        Raised (OtherException "the repetition number is too large")).
Proof. split; reflexivity. Qed.

(** C2, amended. The tester prints the heading, searches the sample with
    the host engine, and then: on a match it reports the match, the
    captured groups when there are any, and the matched text; without a
    match it reports that none was found; when the engine raises
    [re.error], as it does for the pattern [(], it reports the invalid
    pattern with the engine's message. In these three cases the call
    returns. An exception of the engine that is not [re.error] is not
    caught: it leaves the tester after the heading. *)
Theorem test_pattern_outcomes {host : Host} (pattern sample : string) :
  (forall m,
     re_search pattern sample = SearchMatch m ->
     _test_pattern pattern sample
     = ((Print (String nl "🧪 Testing: '" ++ sample ++ "'")
           :: Print "   ✅ Match found!"
           :: match groups m with
              | [] => []
              | _ => [Print ("   📋 Captured groups: " ++ repr_groups (groups m))]
              end
           ++ [Print ("   🎯 Matched text: '" ++ group m ++ "'")])%list,
        Returned tt))
  /\ (re_search pattern sample = SearchNone ->
      _test_pattern pattern sample
      = ([Print (String nl "🧪 Testing: '" ++ sample ++ "'");
          Print "   ❌ No match found"],
         Returned tt))
  /\ (forall msg,
        re_search pattern sample = SearchRaises (ReError msg) ->
        _test_pattern pattern sample
        = ([Print (String nl "🧪 Testing: '" ++ sample ++ "'");
            Print ("   ❌ Invalid regex pattern: " ++ msg)],
           Returned tt))
  /\ (forall e,
        re_search pattern sample = SearchRaises e ->
        is_re_error e = false ->
        _test_pattern pattern sample
        = ([Print (String nl "🧪 Testing: '" ++ sample ++ "'")], Raised e)).
Proof.
  unfold _test_pattern. repeat split.
  - intros m ->. destruct (groups m); reflexivity.
  - intros ->. reflexivity.
  - intros msg ->. reflexivity.
  - intros e -> He. cbn. rewrite He. reflexivity.
Qed.

Lemma test_pattern_outcomes_witness :
  _test_pattern (host := literal_host) "(" "abc"
  = ([Print (String nl "🧪 Testing: '" ++ "abc" ++ "'");
      Print ("   ❌ Invalid regex pattern: "
             ++ "missing ), unterminated subpattern at position 0")],
     Returned tt).
Proof.
  apply (proj1 (proj2 (proj2 (test_pattern_outcomes (host := literal_host) "(" "abc")))).
  reflexivity.
Defined.

(** ** Generation *)

(** C6. When the parsed response has an empty pattern, the [try] block of
    [generate] sends the one request, prints the failure message and
    nothing else, and returns: the pattern is neither tested nor
    explained, whatever the test string and the explain flag are. *)
Theorem empty_pattern_reports_failure {host : Host} (prompt content : string)
    (test_string : option string) (explain : bool) :
  chat_completions_create prompt = CompletionContent (Some content) ->
  fst (fst (_parse_response (strip content))) = "" ->
  generate_from_content content test_string explain
  = ([Print "❌ Failed to generate valid regex pattern"], Returned tt)
  /\ generate_with_model prompt test_string explain
     = ([ChatCompletionRequest "gpt-4" 400 prompt;
         Print "❌ Failed to generate valid regex pattern"],
        Returned tt).
Proof.
  intros Hc Hp.
  assert (H : generate_from_content content test_string explain
              = ([Print "❌ Failed to generate valid regex pattern"], Returned tt)).
  { unfold generate_from_content.
    destruct (_parse_response (strip content)) as [[pat expl] exs].
    simpl in Hp. subst pat. reflexivity. }
  split; [exact H |].
  unfold generate_with_model. rewrite Hc. cbn [bind app].
  rewrite H. reflexivity.
Qed.

Lemma empty_pattern_reports_failure_witness :
  generate_from_content (host := literal_host) "no recognizable lines" (Some "abc") true
  = ([Print "❌ Failed to generate valid regex pattern"], Returned tt)
  /\ generate_with_model (host := literal_host) "any prompt" (Some "abc") true
     = ([ChatCompletionRequest "gpt-4" 400 "any prompt";
         Print "❌ Failed to generate valid regex pattern"],
        Returned tt).
Proof.
  apply (empty_pattern_reports_failure (host := literal_host)); reflexivity.
Defined.

(** C7. With a credential present, [main] prints its two banner lines and
    ends with an [AttributeError] that nothing catches: [generate] looks up
    [_check_common_patterns], a name the class does not define, before its
    [try] statement. This holds for every description, test string and
    flag combination. *)
Theorem main_ends_with_AttributeError {host : Host} (c : ascii) (key : string)
    (args : Args) :
  main (Some (String c key)) args
  = ([Print "🚀 RegexAI - English to Regex Generator"; Print (repeat_string "=" 40)],
     Raised (AttributeError "'RegexAI' object has no attribute '_check_common_patterns'"))
  /\ generate (arg_description args) (arg_test args) (arg_dry_run args) (arg_explain args)
     = ([], Raised (AttributeError "'RegexAI' object has no attribute '_check_common_patterns'")).
Proof. split; reflexivity. Qed.

(** C8. With the dry-run flag set, [generate] sends no request to the chat
    service, and it prints nothing either: it ends with the
    [AttributeError] of its first line, so the prompt [_build_prompt]
    gives for the description is not printed. *)
Theorem dry_run_prints_no_prompt {host : Host} (description : string)
    (test_string : option string) (explain : bool) :
  generate description test_string true explain
  = ([], Raised (AttributeError "'RegexAI' object has no attribute '_check_common_patterns'"))
  /\ ~ In (Print (_build_prompt description))
         (fst (generate description test_string true explain))
  /\ getattr "_buil_prompt"
     = ([], Raised (AttributeError "'RegexAI' object has no attribute '_buil_prompt'")).
Proof. repeat split. intros []. Qed.

(** * Further properties *)

(** ** Construction and the missing credential *)

(** X3. Without a key in the environment, or with an empty one, [__init__]
    prints its two lines and raises [SystemExit(1)]; [main] then has
    printed its banner and these two lines, sends no request, and ends
    with exit status 1. With a non-empty key, [__init__] prints nothing and
    keeps the key. *)
Theorem missing_credential_exits {host : Host} (env_api_key : option string)
    (args : Args) :
  truthy_opt env_api_key = false ->
  __init__ env_api_key
  = ([Print "❌ Error: OPENAI_API_KEY not found in environment";
      Print "💡 Create a .env file with: OPENAI_API_KEY=your_key_here"],
     Raised (SystemExit 1))
  /\ main env_api_key args
     = ([Print "🚀 RegexAI - English to Regex Generator";
         Print (repeat_string "=" 40);
         Print "❌ Error: OPENAI_API_KEY not found in environment";
         Print "💡 Create a .env file with: OPENAI_API_KEY=your_key_here"],
        Raised (SystemExit 1))
  /\ is_Exception (SystemExit 1) = false
  /\ (forall c key, __init__ (Some (String c key)) = ([], Returned (mkRegexAI (String c key)))).
Proof.
  intros H. unfold main, __init__. rewrite H. repeat split.
Qed.

Lemma missing_credential_exits_witness :
  __init__ (Some "")
  = ([Print "❌ Error: OPENAI_API_KEY not found in environment";
      Print "💡 Create a .env file with: OPENAI_API_KEY=your_key_here"],
     Raised (SystemExit 1)).
Proof.
  apply (proj1 (missing_credential_exits (host := literal_host) (Some "")
                  (mkArgs "email" None false false) eq_refl)).
Defined.

(** ** The pattern tester and exceptions other than [re.error] *)

(** X4. When the engine raises an exception that is not [re.error], the
    tester has printed its heading and lets the exception through: its
    [except] clause names [re.error] only. *)
Theorem test_pattern_other_exception {host : Host} (pattern sample : string)
    (e : exn) :
  re_search pattern sample = SearchRaises e ->
  is_re_error e = false ->
  _test_pattern pattern sample
  = ([Print (String nl "🧪 Testing: '" ++ sample ++ "'")], Raised e).
Proof.
  intros Hs He. unfold _test_pattern. rewrite Hs.
  cbn. rewrite He. reflexivity.
Qed.

Lemma test_pattern_other_exception_witness :
  _test_pattern (host := failing_host) "a{4294967296}" "abc"
  = ([Print (String nl "🧪 Testing: '" ++ "abc" ++ "'")],
     Raised (OtherException "the repetition number is too large")).
Proof.
  apply (test_pattern_other_exception (host := failing_host)); reflexivity.
Defined.

(** ** The [try] statement of [generate] *)

Lemma try_except_Exception_caught {A} (body : M A) (handler : exn -> M A) :
  (forall e, no_Exception_escapes (handler e)) ->
  no_Exception_escapes (try_except body is_Exception handler).
Proof.
  intros Hh. destruct body as [t [a | e]]; unfold no_Exception_escapes; cbn.
  - exact I.
  - destruct (is_Exception e) eqn:He.
    + specialize (Hh e). unfold no_Exception_escapes in Hh.
      destruct (handler e) as [t' o]. exact Hh.
    + cbn. exact He.
Qed.

(** X5. No exception of class [Exception] leaves the [try] statement,
    whatever the chat service and the engine do: the statement returns, or
    ends with an exception outside that class ([SystemExit]). *)
Theorem generate_with_model_catches {host : Host} (prompt : string)
    (test_string : option string) (explain : bool) :
  no_Exception_escapes (generate_with_model prompt test_string explain).
Proof.
  unfold generate_with_model. apply try_except_Exception_caught.
  intros e. exact I.
Qed.

(** X6. A failure of the chat service that is an [Exception] is reported
    after the request with the message of the exception, and the [try]
    statement returns; nothing is parsed, displayed, tested or
    explained. *)
Theorem transport_failure_reported {host : Host} (prompt : string)
    (test_string : option string) (explain : bool) (e : exn) :
  chat_completions_create prompt = CompletionRaises e ->
  is_Exception e = true ->
  generate_with_model prompt test_string explain
  = ([ChatCompletionRequest "gpt-4" 400 prompt;
      Print ("❌ Error generating regex: " ++ str_exn e)],
     Returned tt).
Proof.
  intros Hc He. unfold generate_with_model. rewrite Hc. cbn.
  rewrite He. reflexivity.
Qed.

Lemma transport_failure_reported_witness :
  generate_with_model (host := failing_host) "any prompt" (Some "abc") true
  = ([ChatCompletionRequest "gpt-4" 400 "any prompt";
      Print ("❌ Error generating regex: " ++ "Connection error.")],
     Returned tt).
Proof.
  apply (transport_failure_reported (host := failing_host)
           "any prompt" (Some "abc") true (OtherException "Connection error."));
    reflexivity.
Defined.

(** X7. A response without content ([None]) makes [.strip()] raise an
    [AttributeError] inside the [try] statement; it is reported like a
    failed generation and the statement returns. *)
Theorem missing_content_reported {host : Host} (prompt : string)
    (test_string : option string) (explain : bool) :
  chat_completions_create prompt = CompletionContent None ->
  generate_with_model prompt test_string explain
  = ([ChatCompletionRequest "gpt-4" 400 prompt;
      Print "❌ Error generating regex: 'NoneType' object has no attribute 'strip'"],
     Returned tt).
Proof.
  intros Hc. unfold generate_with_model. rewrite Hc. reflexivity.
Qed.

Lemma missing_content_reported_witness :
  generate_with_model (host := empty_content_host) "any prompt" None false
  = ([ChatCompletionRequest "gpt-4" 400 "any prompt";
      Print "❌ Error generating regex: 'NoneType' object has no attribute 'strip'"],
     Returned tt).
Proof.
  apply (missing_content_reported (host := empty_content_host)). reflexivity.
Defined.

(** ** Traces *)

Lemma bind_trace {A B} (m : M A) (k : A -> M B) :
  fst (bind m k)
  = match snd m with
    | Returned a => (fst m ++ fst (k a))%list
    | Raised _ => fst m
    end.
Proof.
  destruct m as [t [a | e]]; cbn; [| reflexivity].
  destruct (k a); reflexivity.
Qed.

Lemma prints_only_bind {A B} (m : M A) (k : A -> M B) :
  prints_only m -> (forall a, prints_only (k a)) -> prints_only (bind m k).
Proof.
  unfold prints_only. intros Hm Hk. rewrite bind_trace.
  destruct (snd m) as [a | e]; [| exact Hm].
  rewrite forallb_app, Hm. apply Hk.
Qed.

Lemma prints_only_try {A} (body : M A) (catches : exn -> bool) (handler : exn -> M A) :
  prints_only body -> (forall e, prints_only (handler e)) ->
  prints_only (try_except body catches handler).
Proof.
  unfold prints_only. intros Hb Hh. destruct body as [t [a | e]]; cbn in *.
  - exact Hb.
  - destruct (catches e); [| exact Hb].
    specialize (Hh e). destruct (handler e) as [t' o]. cbn in *.
    now rewrite forallb_app, Hb.
Qed.

Lemma prints_only_print (text : string) : prints_only (print text).
Proof. reflexivity. Qed.

Lemma prints_only_ret {A} (a : A) : prints_only (ret a).
Proof. reflexivity. Qed.

Lemma prints_only_raise {A} (e : exn) : prints_only (raise (A := A) e).
Proof. reflexivity. Qed.

Lemma prints_only_self_call {A} (name : string) (body : M A) :
  prints_only body -> prints_only (self_call name body).
Proof.
  intros H. unfold self_call, getattr. apply prints_only_bind; [| intros _; exact H].
  destruct (existsb (String.eqb name) RegexAI_attributes); reflexivity.
Qed.

Lemma prints_only_print_each {A} (f : A -> string) (xs : list A) :
  prints_only (print_each f xs).
Proof.
  rewrite print_each_trace. unfold prints_only. cbn.
  induction xs as [|x xs IH]; [reflexivity | exact IH].
Qed.

Lemma prints_only_display (pattern explanation : string) (examples : list string) :
  prints_only (_display_result pattern explanation examples).
Proof.
  unfold _display_result.
  repeat (apply prints_only_bind; [| intros _]);
    try apply prints_only_print.
  - destruct (truthy explanation);
      [apply prints_only_bind; [| intros _]; apply prints_only_print
      | apply prints_only_ret].
  - destruct examples; [apply prints_only_ret |].
    apply prints_only_bind; [apply prints_only_print | intros _].
    apply prints_only_print_each.
Qed.

Lemma prints_only_test {host : Host} (pattern sample : string) :
  prints_only (_test_pattern pattern sample).
Proof.
  unfold _test_pattern.
  apply prints_only_bind; [apply prints_only_print | intros _].
  apply prints_only_try; [| intros e; apply prints_only_print].
  destruct (re_search pattern sample) as [e | | m].
  - apply prints_only_raise.
  - apply prints_only_print.
  - apply prints_only_bind; [apply prints_only_print | intros _].
    apply prints_only_bind; [| intros _; apply prints_only_print].
    destruct (groups m); [apply prints_only_ret | apply prints_only_print].
Qed.

Lemma prints_only_explain (pattern : string) :
  prints_only (_explain_pattern pattern).
Proof.
  unfold _explain_pattern.
  apply prints_only_bind; [apply prints_only_print | intros _].
  apply prints_only_bind; [apply prints_only_print | intros _].
  apply prints_only_print_each.
Qed.

Lemma prints_only_from_content {host : Host} (content : string)
    (test_string : option string) (explain : bool) :
  prints_only (generate_from_content content test_string explain).
Proof.
  unfold generate_from_content.
  apply prints_only_bind;
    [apply prints_only_self_call, prints_only_ret | intros [[pat expl] exs]].
  destruct (truthy pat); [| apply prints_only_print].
  apply prints_only_bind;
    [apply prints_only_self_call, prints_only_display | intros _].
  apply prints_only_bind; [| intros _].
  - destruct test_string as [sample |]; [| apply prints_only_ret].
    destruct (truthy sample); [| apply prints_only_ret].
    apply prints_only_self_call, prints_only_test.
  - destruct explain; [| apply prints_only_ret].
    apply prints_only_self_call, prints_only_explain.
Qed.

Lemma request_then_prints (request : event) (o : outcome string)
    (k : string -> M unit) (catches : exn -> bool) (handler : exn -> M unit) :
  (forall content, prints_only (k content)) ->
  (forall e, prints_only (handler e)) ->
  exists printed,
    fst (try_except (bind ([request], o) k) catches handler) = request :: printed
    /\ forallb is_print printed = true.
Proof.
  unfold prints_only. intros Hk Hh. destruct o as [content | e]; cbn.
  - specialize (Hk content). destruct (k content) as [t [[] | e]]; cbn in *.
    + eexists; split; [reflexivity | exact Hk].
    + destruct (catches e); [| eexists; split; [reflexivity | exact Hk]].
      specialize (Hh e). destruct (handler e) as [t' o']. cbn in *.
      eexists; split; [reflexivity |]. now rewrite forallb_app, Hk.
  - destruct (catches e); [| eexists; split; reflexivity].
    specialize (Hh e). destruct (handler e) as [t' o']. cbn in *.
    eexists; split; [reflexivity | exact Hh].
Qed.

(** X8. The [try] statement sends exactly one request, before anything is
    printed: the request names the model [gpt-4], 400 tokens and the
    prompt, and every later event is a [print]. *)
Theorem generate_with_model_one_request {host : Host} (prompt : string)
    (test_string : option string) (explain : bool) :
  exists printed,
    fst (generate_with_model prompt test_string explain)
    = ChatCompletionRequest "gpt-4" 400 prompt :: printed
    /\ forallb is_print printed = true.
Proof.
  unfold generate_with_model. apply request_then_prints.
  - intros content. apply prints_only_from_content.
  - intros e. apply prints_only_print.
Qed.

(** ** The display of a result *)

(** X9. [_display_result] prints the heading and the pattern; then the
    explanation under its heading when the explanation is not empty; then,
    when there is an example, the examples heading and one line per
    example, in order. It returns; it never raises. *)
Theorem display_result_trace (pattern explanation : string)
    (examples : list string) :
  _display_result pattern explanation examples
  = ((Print (String nl "🎯 Generated Regex:")
        :: Print ("   " ++ pattern)
        :: (if truthy explanation
            then [Print (String nl "📝 Explanation:"); Print ("   " ++ explanation)]
            else [])
        ++ match examples with
           | [] => []
           | _ => Print (String nl "✅ Example matches:")
                    :: map (fun example => Print ("   - " ++ example)) examples
           end)%list,
     Returned tt).
Proof.
  unfold _display_result.
  destruct (truthy explanation), examples as [|ex exs];
    try rewrite print_each_trace; reflexivity.
Qed.

(** ** An engine failure during generation *)

Lemma display_result_returns (pattern explanation : string) (examples : list string) :
  snd (_display_result pattern explanation examples) = Returned tt.
Proof.
  unfold _display_result.
  destruct (truthy explanation), examples as [|ex exs];
    try rewrite print_each_trace; reflexivity.
Qed.

Lemma bind_ret_l {A B} (a : A) (k : A -> M B) : bind (ret a) k = k a.
Proof. unfold bind, ret. destruct (k a). reflexivity. Qed.

Lemma self_call_defined {A} (name : string) (body : M A) :
  existsb (String.eqb name) RegexAI_attributes = true -> self_call name body = body.
Proof.
  intros H. unfold self_call, getattr. rewrite H. apply bind_ret_l.
Qed.

(** X10. When the response gives a pattern and a test string is given, an
    engine exception that is not [re.error] leaves the tester and is
    caught by the [try] statement of [generate]: after the displayed
    result and the tester's heading the run prints the generation error
    with the engine's message and returns; the pattern is not explained,
    even with the explain flag set. *)
Theorem engine_failure_reported {host : Host} (prompt content sample : string)
    (explain : bool) (pat expl : string) (exs : list string) (e : exn) :
  chat_completions_create prompt = CompletionContent (Some content) ->
  _parse_response (strip content) = (pat, expl, exs) ->
  truthy pat = true ->
  truthy sample = true ->
  re_search pat sample = SearchRaises e ->
  is_re_error e = false ->
  is_Exception e = true ->
  generate_with_model prompt (Some sample) explain
  = ((ChatCompletionRequest "gpt-4" 400 prompt
        :: fst (_display_result pat expl exs)
        ++ [Print (String nl "🧪 Testing: '" ++ sample ++ "'");
            Print ("❌ Error generating regex: " ++ str_exn e)])%list,
     Returned tt).
Proof.
  intros Hc Hparse Hpat Hsample Hsearch Hre Hexc.
  unfold generate_with_model. rewrite Hc. cbn [bind].
  unfold generate_from_content. rewrite Hparse.
  rewrite !self_call_defined by reflexivity.
  rewrite bind_ret_l, Hpat, Hsample.
  unfold _test_pattern. rewrite Hsearch.
  pose proof (display_result_returns pat expl exs) as Hd.
  destruct (_display_result pat expl exs) as [shown o]. cbn in Hd. subst o.
  cbn. rewrite Hre. cbn. rewrite Hexc. cbn.
  now rewrite <- app_assoc.
Qed.

Lemma engine_failure_reported_witness :
  generate_with_model (host := overflow_host) "any prompt" (Some "abc") true
  = ((ChatCompletionRequest "gpt-4" 400 "any prompt"
        :: fst (_display_result "a{4294967296}" "" [])
        ++ [Print (String nl "🧪 Testing: '" ++ "abc" ++ "'");
            Print ("❌ Error generating regex: "
                   ++ str_exn (OtherException "the repetition number is too large"))])%list,
     Returned tt).
Proof.
  apply (engine_failure_reported (host := overflow_host)
           "any prompt" "PATTERN: a{4294967296}" "abc" true
           "a{4294967296}" "" []
           (OtherException "the repetition number is too large"));
    reflexivity.
Defined.

(** ** The prompt builder *)

Lemma length_app (a b : string) :
  String.length (a ++ b) = String.length a + String.length b.
Proof. induction a as [|c a IH]; cbn; [reflexivity | now rewrite IH]. Qed.

Lemma append_inv_head (a x y : string) : a ++ x = a ++ y -> x = y.
Proof. induction a as [|c a IH]; cbn; intros H; [exact H | injection H; auto]. Qed.

Lemma append_inv_same_length (x y r s : string) :
  String.length x = String.length y -> x ++ r = y ++ s -> x = y.
Proof.
  revert y. induction x as [|c x IH]; intros [|d y] Hlen H; try discriminate.
  - reflexivity.
  - cbn in *. injection H as -> H. injection Hlen as Hlen.
    f_equal. now apply IH.
Qed.

Lemma build_prompt_shape (description : string) :
  _build_prompt description
  = prompt_opening ++ description ++ prompt_instructions ++ description.
Proof.
  let v := eval vm_compute in prompt_instructions in
  change prompt_instructions with v.
  unfold _build_prompt, prompt_opening. cbn [append].
  rewrite append_assoc. reflexivity.
Qed.

(** X11. The prompt is the fixed opening, the description, the fixed
    instructions and the description again, taken as it is (also when it
    is empty or has several lines); so two descriptions with the same
    prompt are equal. *)
Theorem build_prompt_injective :
  (forall description,
     _build_prompt description
     = prompt_opening ++ description ++ prompt_instructions ++ description)
  /\ (forall d1 d2, _build_prompt d1 = _build_prompt d2 -> d1 = d2).
Proof.
  split; [apply build_prompt_shape |].
  intros d1 d2 H. rewrite !build_prompt_shape in H.
  assert (Hlen : String.length d1 = String.length d2).
  { apply (f_equal String.length) in H. rewrite !length_app in H. lia. }
  apply append_inv_head in H.
  exact (append_inv_same_length _ _ _ _ Hlen H).
Qed.

(** ** What the parser leaves in the fields *)

Lemma lstrip_head (s : string) :
  match lstrip s with
  | EmptyString => True
  | String c _ => is_space c = false
  end.
Proof.
  induction s as [|c s IH]; cbn; [exact I |].
  destruct (is_space c) eqn:Hc; [exact IH | exact Hc].
Qed.

Lemma rstrip_cons (c : ascii) (t : string) :
  rstrip (String c t)
  = match rstrip t with
    | EmptyString => if is_space c then EmptyString else String c EmptyString
    | String d u => String c (String d u)
    end.
Proof. cbn [rstrip]. destruct (rstrip t); reflexivity. Qed.

Lemma rstrip_idem (s : string) : rstrip (rstrip s) = rstrip s.
Proof.
  induction s as [|c s IH]; [reflexivity |].
  rewrite rstrip_cons. destruct (rstrip s) as [|d u] eqn:Hr.
  - destruct (is_space c) eqn:Hc; [reflexivity |].
    rewrite rstrip_cons. cbn [rstrip]. now rewrite Hc.
  - rewrite rstrip_cons, IH. reflexivity.
Qed.

Lemma rstrip_keeps_head (c : ascii) (t : string) :
  is_space c = false -> exists t', rstrip (String c t) = String c t'.
Proof.
  intros Hc. cbn [rstrip]. destruct (rstrip t) as [|d u].
  - rewrite Hc. now exists "".
  - now exists (String d u).
Qed.

Lemma strip_idem (s : string) : strip (strip s) = strip s.
Proof.
  unfold strip. pose proof (lstrip_head s) as Hh.
  destruct (lstrip s) as [|c t]; [reflexivity |].
  destruct (rstrip_keeps_head c t Hh) as [t' Ht]. rewrite Ht.
  cbn [lstrip]. rewrite Hh, <- Ht. apply rstrip_idem.
Qed.

Lemma all_chars_lstrip (ok : ascii -> bool) (s : string) :
  all_chars ok s = true -> all_chars ok (lstrip s) = true.
Proof.
  induction s as [|c s IH]; cbn; [auto |].
  intros H. apply andb_true_iff in H as [Hc Hs].
  destruct (is_space c); [auto | cbn; now rewrite Hc, Hs].
Qed.

Lemma all_chars_rstrip (ok : ascii -> bool) (s : string) :
  all_chars ok s = true -> all_chars ok (rstrip s) = true.
Proof.
  induction s as [|c s IH]; cbn [rstrip all_chars]; [auto |].
  intros H. apply andb_true_iff in H as [Hc Hs]. specialize (IH Hs).
  destruct (rstrip s) as [|d u].
  - destruct (is_space c); cbn; [reflexivity | now rewrite Hc].
  - cbn [all_chars] in *. now rewrite Hc, IH.
Qed.

Lemma all_chars_strip (ok : ascii -> bool) (s : string) :
  all_chars ok s = true -> all_chars ok (strip s) = true.
Proof. intros H. now apply all_chars_rstrip, all_chars_lstrip. Qed.

Lemma all_chars_app (ok : ascii -> bool) (a b : string) :
  all_chars ok (a ++ b) = all_chars ok a && all_chars ok b.
Proof.
  induction a as [|c a IH]; cbn; [reflexivity | now rewrite IH, andb_assoc].
Qed.

Lemma all_chars_replace_from (ok : ascii -> bool) (old new s : string) (skip : nat) :
  all_chars ok new = true -> all_chars ok s = true ->
  all_chars ok (replace_from old new s skip) = true.
Proof.
  intros Hn. revert skip. induction s as [|c s IH]; intros skip H; [reflexivity |].
  cbn [all_chars] in H. apply andb_true_iff in H as [Hc Hs].
  cbn [replace_from]. destruct skip as [|k]; [| now apply IH].
  destruct (prefix old (String c s)).
  - rewrite all_chars_app, Hn. now apply IH.
  - cbn [all_chars]. rewrite Hc. now apply IH.
Qed.

Lemma all_chars_remove (ok : ascii -> bool) (c : ascii) (old s : string) :
  all_chars ok s = true -> all_chars ok (replace (String c old) "" s) = true.
Proof. intros H. unfold replace. now apply all_chars_replace_from. Qed.

(** The pieces of a split keep what holds of every character of the text,
    and do not contain the separator. *)
Lemma split_pieces_all (ok : ascii -> bool) (sep : ascii) (s : string) :
  all_chars ok s = true ->
  Forall (fun piece =>
            all_chars ok piece = true
            /\ all_chars (fun c => negb (Ascii.eqb c sep)) piece = true)
    (split sep s).
Proof.
  induction s as [|c s IH]; cbn [split all_chars]; intros H.
  - repeat constructor.
  - apply andb_true_iff in H as [Hc Hs]. specialize (IH Hs).
    destruct (Ascii.eqb c sep) eqn:Hsep.
    + constructor; [split; reflexivity | exact IH].
    + destruct (split sep s) as [|piece rest].
      * repeat constructor; cbn; [now rewrite Hc | now rewrite Hsep].
      * inversion IH as [|? ? [Hp1 Hp2] Hrest]; subst.
        constructor; [| assumption].
        cbn [all_chars]. rewrite Hc, Hsep, Hp1, Hp2. split; reflexivity.
Qed.

Lemma split_examples_clean (text : string) :
  newline_free text = true ->
  Forall (fun ex => clean_example ex /\ newline_free ex = true) (split_examples text).
Proof.
  intros Hnl. unfold split_examples. apply Forall_forall. intros ex Hin.
  apply in_map_iff in Hin as [piece [<- Hin]].
  apply filter_In in Hin as [Hin Htruthy].
  pose proof (split_pieces_all _ pipe text Hnl) as Hall.
  rewrite Forall_forall in Hall. destruct (Hall piece Hin) as [Hpnl Hpipe].
  repeat split.
  - intros Hempty. rewrite Hempty in Htruthy. discriminate.
  - apply strip_idem.
  - now apply all_chars_strip.
  - now apply all_chars_strip.
Qed.

Lemma parse_line_clean (acc : parsed) (line : string) :
  newline_free line = true -> fields_clean acc -> fields_clean (parse_line acc line).
Proof.
  intros Hnl. destruct acc as [[pat expl] exs].
  unfold fields_clean, parse_line. cbn [fst snd]. intros [Hp [He Hx]].
  assert (Hs : newline_free (strip line) = true) by now apply all_chars_strip.
  destruct (startswith "PATTERN:" (strip line)); cbn [fst snd].
  { repeat split; try tauto; [apply strip_idem |].
    now apply all_chars_strip, all_chars_remove. }
  destruct (startswith "EXPLANATION:" (strip line)); cbn [fst snd].
  { repeat split; try tauto; [apply strip_idem |].
    now apply all_chars_strip, all_chars_remove. }
  destruct (startswith "EXAMPLES:" (strip line)); cbn [fst snd].
  { repeat split; try tauto.
    apply split_examples_clean. now apply all_chars_strip, all_chars_remove. }
  tauto.
Qed.

Lemma fold_parse_line_clean (lines : list string) (acc : parsed) :
  Forall (fun line => newline_free line = true) lines ->
  fields_clean acc -> fields_clean (fold_left parse_line lines acc).
Proof.
  revert acc. induction lines as [|line lines IH]; intros acc Hl Hacc; [exact Hacc |].
  inversion Hl; subst. cbn [fold_left]. apply IH; [assumption |].
  now apply parse_line_clean.
Qed.

Lemma split_nl_lines (result : string) :
  Forall (fun line => newline_free line = true) (split nl result).
Proof.
  pose proof (split_pieces_all (fun _ => true) nl result) as H.
  assert (Ht : all_chars (fun _ => true) result = true)
    by (clear H; induction result as [|c r IHr]; [reflexivity | exact IHr]).
  specialize (H Ht). eapply Forall_impl; [| exact H].
  intros line [_ Hline]. exact Hline.
Qed.

(** X12. Whatever the response is, the pattern and the explanation the
    parser returns are trimmed and have no newline, and every example is
    non-empty, trimmed, and has neither a pipe nor a newline. *)
Theorem parse_response_fields_clean (result : string) :
  (strip (fst (fst (_parse_response result))) = fst (fst (_parse_response result))
   /\ newline_free (fst (fst (_parse_response result))) = true)
  /\ (strip (snd (fst (_parse_response result))) = snd (fst (_parse_response result))
      /\ newline_free (snd (fst (_parse_response result))) = true)
  /\ Forall (fun ex => (ex <> "" /\ strip ex = ex /\ pipe_free ex = true)
                       /\ newline_free ex = true)
       (snd (_parse_response result)).
Proof.
  change (fields_clean (_parse_response result)).
  unfold _parse_response. apply fold_parse_line_clean; [apply split_nl_lines |].
  unfold fields_clean. cbn. repeat split. constructor.
Qed.

Lemma parse_line_keeps_pattern (acc : parsed) (line : string) :
  startswith "PATTERN:" (strip line) = false ->
  fst (fst (parse_line acc line)) = fst (fst acc).
Proof.
  intros H. destruct acc as [[pat expl] exs]. unfold parse_line. rewrite H.
  destruct (startswith "EXPLANATION:" (strip line)); [reflexivity |].
  destruct (startswith "EXAMPLES:" (strip line)); reflexivity.
Qed.

Lemma parse_line_keeps_explanation (acc : parsed) (line : string) :
  startswith "EXPLANATION:" (strip line) = false ->
  snd (fst (parse_line acc line)) = snd (fst acc).
Proof.
  intros H. destruct acc as [[pat expl] exs]. unfold parse_line. rewrite H.
  destruct (startswith "PATTERN:" (strip line)); [reflexivity |].
  destruct (startswith "EXAMPLES:" (strip line)); reflexivity.
Qed.

Lemma parse_line_keeps_examples (acc : parsed) (line : string) :
  startswith "EXAMPLES:" (strip line) = false ->
  snd (parse_line acc line) = snd acc.
Proof.
  intros H. destruct acc as [[pat expl] exs]. unfold parse_line. rewrite H.
  destruct (startswith "PATTERN:" (strip line)); [reflexivity |].
  destruct (startswith "EXPLANATION:" (strip line)); reflexivity.
Qed.

(** A part of the fields that no line of the list changes is, after the
    loop, what it was before. *)
Lemma fold_parse_line_keeps {A} (part : parsed -> A) (p : string)
    (lines : list string) :
  (forall acc line,
     startswith p (strip line) = false -> part (parse_line acc line) = part acc) ->
  forall acc,
    Forall (fun line => startswith p (strip line) = false) lines ->
    part (fold_left parse_line lines acc) = part acc.
Proof.
  intros Hkeep. induction lines as [|line lines IH]; intros acc H; [reflexivity |].
  inversion H; subst. cbn [fold_left]. rewrite IH by assumption. now apply Hkeep.
Qed.

Lemma startswith_explanation_not_pattern (s : string) :
  startswith "EXPLANATION:" s = true -> startswith "PATTERN:" s = false.
Proof. intros H. apply prefix_iff in H as [rest ->]. reflexivity. Qed.

Lemma startswith_examples_not_pattern (s : string) :
  startswith "EXAMPLES:" s = true -> startswith "PATTERN:" s = false.
Proof. intros H. apply prefix_iff in H as [rest ->]. reflexivity. Qed.

Lemma startswith_examples_not_explanation (s : string) :
  startswith "EXAMPLES:" s = true -> startswith "EXPLANATION:" s = false.
Proof. intros H. apply prefix_iff in H as [rest ->]. reflexivity. Qed.

(** What a line that carries a prefix puts in the field of the prefix; the
    other fields do not enter. *)
Lemma parse_line_sets_pattern (acc : parsed) (line : string) :
  startswith "PATTERN:" (strip line) = true ->
  fst (fst (parse_line acc line)) = strip (replace "PATTERN:" "" (strip line)).
Proof.
  intros H. destruct acc as [[pat expl] exs]. unfold parse_line. now rewrite H.
Qed.

Lemma parse_line_sets_explanation (acc : parsed) (line : string) :
  startswith "EXPLANATION:" (strip line) = true ->
  snd (fst (parse_line acc line)) = strip (replace "EXPLANATION:" "" (strip line)).
Proof.
  intros H. destruct acc as [[pat expl] exs]. unfold parse_line.
  now rewrite (startswith_explanation_not_pattern _ H), H.
Qed.

Lemma parse_line_sets_examples (acc : parsed) (line : string) :
  startswith "EXAMPLES:" (strip line) = true ->
  snd (parse_line acc line)
  = split_examples (strip (replace "EXAMPLES:" "" (strip line))).
Proof.
  intros H. destruct acc as [[pat expl] exs]. unfold parse_line.
  now rewrite (startswith_examples_not_pattern _ H),
    (startswith_examples_not_explanation _ H), H.
Qed.

(** A part of the fields that lines without the prefix keep, and that a
    line with the prefix sets from the line alone, is the same after the
    loop over all lines and after the loop over the lines with the
    prefix. *)
Lemma fold_parse_line_filter {A} (part : parsed -> A) (p : string)
    (value : string -> A) (lines : list string) :
  (forall acc line,
     startswith p (strip line) = false -> part (parse_line acc line) = part acc) ->
  (forall acc line,
     startswith p (strip line) = true -> part (parse_line acc line) = value line) ->
  forall acc1 acc2,
    part acc1 = part acc2 ->
    part (fold_left parse_line lines acc1)
    = part (fold_left parse_line
              (filter (fun line => startswith p (strip line)) lines) acc2).
Proof.
  intros Hkeep Hset. induction lines as [|line lines IH]; intros acc1 acc2 Hacc.
  - exact Hacc.
  - cbn [fold_left filter]. destruct (startswith p (strip line)) eqn:Hp.
    + cbn [fold_left]. apply IH. now rewrite !Hset.
    + apply IH. now rewrite Hkeep.
Qed.

(** X13. A field whose prefix starts no trimmed line of the response stays
    empty: the pattern and the explanation are the empty string, the
    examples the empty list. Each field is decided by the lines of its own
    prefix only: it is the field obtained from these lines alone, all
    other lines deleted. *)
Theorem parse_response_absent_prefix (result : string) :
  (Forall (fun line => startswith "PATTERN:" (strip line) = false) (split nl result) ->
   fst (fst (_parse_response result)) = "")
  /\ (Forall (fun line => startswith "EXPLANATION:" (strip line) = false)
        (split nl result) ->
      snd (fst (_parse_response result)) = "")
  /\ (Forall (fun line => startswith "EXAMPLES:" (strip line) = false)
        (split nl result) ->
      snd (_parse_response result) = [])
  /\ fst (fst (_parse_response result))
     = fst (fst (parse_lines
                   (filter (fun line => startswith "PATTERN:" (strip line))
                      (split nl result))))
  /\ snd (fst (_parse_response result))
     = snd (fst (parse_lines
                   (filter (fun line => startswith "EXPLANATION:" (strip line))
                      (split nl result))))
  /\ snd (_parse_response result)
     = snd (parse_lines
              (filter (fun line => startswith "EXAMPLES:" (strip line))
                 (split nl result))).
Proof.
  unfold _parse_response, parse_lines. repeat split; try intros H.
  - now rewrite (fold_parse_line_keeps (fun acc => fst (fst acc)) "PATTERN:" _
                   parse_line_keeps_pattern _ H).
  - now rewrite (fold_parse_line_keeps (fun acc => snd (fst acc)) "EXPLANATION:" _
                   parse_line_keeps_explanation _ H).
  - now rewrite (fold_parse_line_keeps (fun acc => snd acc) "EXAMPLES:" _
                   parse_line_keeps_examples _ H).
  - apply (fold_parse_line_filter (fun acc => fst (fst acc)) "PATTERN:"
             (fun line => strip (replace "PATTERN:" "" (strip line))));
      auto using parse_line_keeps_pattern, parse_line_sets_pattern.
  - apply (fold_parse_line_filter (fun acc => snd (fst acc)) "EXPLANATION:"
             (fun line => strip (replace "EXPLANATION:" "" (strip line))));
      auto using parse_line_keeps_explanation, parse_line_sets_explanation.
  - apply (fold_parse_line_filter (fun acc => snd acc) "EXAMPLES:"
             (fun line => split_examples (strip (replace "EXAMPLES:" "" (strip line)))));
      auto using parse_line_keeps_examples, parse_line_sets_examples.
Qed.

Lemma parse_response_absent_prefix_witness :
  fst (fst (_parse_response ("Pattern: ^a$" ++ String nl "EXAMPLES: a|aa"))) = "".
Proof.
  apply (proj1 (parse_response_absent_prefix
                  ("Pattern: ^a$" ++ String nl "EXAMPLES: a|aa"))).
  repeat constructor.
Defined.

(** X1. Last write wins: the last line of the response that carries a
    prefix decides the field of the prefix. When no later line carries
    the prefix, the field is what this line gives (its text with the
    prefix deleted, trimmed; for the examples, split at the pipes),
    whatever the earlier lines set. *)
Theorem parse_response_last_line (result : string) (before after : list string)
    (line : string) :
  split nl result = (before ++ line :: after)%list ->
  (startswith "PATTERN:" (strip line) = true ->
   Forall (fun later => startswith "PATTERN:" (strip later) = false) after ->
   fst (fst (_parse_response result)) = strip (replace "PATTERN:" "" (strip line)))
  /\ (startswith "EXPLANATION:" (strip line) = true ->
      Forall (fun later => startswith "EXPLANATION:" (strip later) = false) after ->
      snd (fst (_parse_response result))
      = strip (replace "EXPLANATION:" "" (strip line)))
  /\ (startswith "EXAMPLES:" (strip line) = true ->
      Forall (fun later => startswith "EXAMPLES:" (strip later) = false) after ->
      snd (_parse_response result)
      = split_examples (strip (replace "EXAMPLES:" "" (strip line)))).
Proof.
  intros Hsplit. unfold _parse_response. rewrite Hsplit, fold_left_app.
  cbn [fold_left]. repeat split; intros Hline Hafter.
  - rewrite (fold_parse_line_keeps (fun acc => fst (fst acc)) "PATTERN:" _
               parse_line_keeps_pattern _ Hafter).
    now apply parse_line_sets_pattern.
  - rewrite (fold_parse_line_keeps (fun acc => snd (fst acc)) "EXPLANATION:" _
               parse_line_keeps_explanation _ Hafter).
    now apply parse_line_sets_explanation.
  - rewrite (fold_parse_line_keeps (fun acc => snd acc) "EXAMPLES:" _
               parse_line_keeps_examples _ Hafter).
    now apply parse_line_sets_examples.
Qed.

Lemma parse_response_last_line_witness :
  fst (fst (_parse_response
              ("PATTERN: one" ++ String nl ("PATTERN: two" ++ String nl "EXAMPLES: a|b"))))
  = "two".
Proof.
  apply (proj1 (parse_response_last_line
                  ("PATTERN: one" ++ String nl ("PATTERN: two" ++ String nl "EXAMPLES: a|b"))
                  ["PATTERN: one"] ["EXAMPLES: a|b"] "PATTERN: two" eq_refl)).
  - reflexivity.
  - repeat constructor.
Defined.

(** ** More on the catalog lookup *)

(** X14. A description whose lower-cased form contains [email] gets the
    email record, whatever else it contains: [email] is the first key. *)
Theorem email_lookup_first (description : string) :
  Substring "email" (lower description) ->
  check_common_patterns description = Some email_info.
Proof.
  intros H. apply contains_iff in H.
  unfold check_common_patterns, common_patterns. cbn [first_match].
  now rewrite key_matches_key_only, H.
Qed.

Lemma email_lookup_first_witness :
  check_common_patterns "Phone numbers or EMAIL" = Some email_info.
Proof.
  apply email_lookup_first. now exists "phone numbers or ", "".
Defined.

Lemma lower_char_idem (c : ascii) : lower_char (lower_char c) = lower_char c.
Proof. destruct c as [[] [] [] [] [] [] [] []]; reflexivity. Qed.

Lemma lower_idem (s : string) : lower (lower s) = lower s.
Proof.
  induction s as [|c s IH]; cbn; [reflexivity | now rewrite lower_char_idem, IH].
Qed.

(** X15. The lookup does not depend on the case of the letters: a
    description and its lower-cased form get the same answer. *)
Theorem check_common_patterns_ignores_case (description : string) :
  check_common_patterns (lower description) = check_common_patterns description.
Proof. unfold check_common_patterns. now rewrite lower_idem. Qed.

Lemma first_match_key (items : list (string * PatternRecord)) (s : string)
    (info : PatternRecord) :
  first_match items s = Some info ->
  exists key, In (key, info) items /\ contains key s = true.
Proof.
  rewrite first_match_find. intros H.
  destruct (find (fun entry => contains (fst entry) s) items) as [[k r] |] eqn:Hf;
    [| discriminate].
  cbn in H. injection H as ->. apply find_some in Hf as [Hin Hk].
  exists k. auto.
Qed.

Lemma first_match_found (items : list (string * PatternRecord)) (s key : string)
    (info : PatternRecord) :
  In (key, info) items -> contains key s = true ->
  exists found, first_match items s = Some found.
Proof.
  intros Hin Hk. rewrite first_match_find.
  destruct (find (fun entry => contains (fst entry) s) items) as [[k r] |] eqn:Hf.
  - now exists r.
  - apply find_none with (x := (key, info)) in Hf; [| exact Hin].
    cbn in Hf. congruence.
Qed.

(** X16. A record the lookup returns is a record of the catalog, and its
    key occurs in the lower-cased description. *)
Theorem check_common_patterns_sound (description : string) (info : PatternRecord) :
  check_common_patterns description = Some info ->
  exists key,
    In (key, info) common_patterns /\ Substring key (lower description).
Proof.
  intros H. apply first_match_key in H as [key [Hin Hk]].
  exists key. split; [exact Hin | now apply contains_iff].
Qed.

Lemma check_common_patterns_sound_witness :
  exists key,
    In (key, ip_info) common_patterns /\ Substring key (lower "ZIP code").
Proof.
  apply (check_common_patterns_sound "ZIP code" ip_info). reflexivity.
Defined.

Lemma Substring_embed (needle a hay b : string) :
  Substring needle hay -> Substring needle (a ++ hay ++ b).
Proof.
  intros [before [after ->]]. exists (a ++ before), (after ++ b).
  now rewrite !append_assoc.
Qed.

(** X17. Text around a description never makes the lookup fail: when a
    description gets a record, every description that contains it gets a
    record too (that of the same key or of an earlier one). *)
Theorem check_common_patterns_embed (description before after : string)
    (info : PatternRecord) :
  check_common_patterns description = Some info ->
  exists found,
    check_common_patterns (before ++ description ++ after) = Some found.
Proof.
  intros H. apply first_match_key in H as [key [Hin Hk]].
  unfold check_common_patterns. apply (first_match_found _ _ key info Hin).
  apply contains_iff. rewrite !lower_app.
  now apply Substring_embed, contains_iff.
Qed.

Lemma check_common_patterns_embed_witness :
  exists found,
    check_common_patterns ("match a " ++ "Date" ++ " or an email") = Some found.
Proof.
  apply (check_common_patterns_embed "Date" "match a " " or an email" date_info).
  reflexivity.
Defined.

(** ** More on the pattern explainer *)

Lemma Substring_trans (a b c : string) :
  Substring a b -> Substring b c -> Substring a c.
Proof.
  intros Hab [before [after ->]]. now apply Substring_embed.
Qed.

Lemma contains_mono (needle p q : string) :
  Substring p q -> contains needle p = true -> contains needle q = true.
Proof.
  intros Hpq H. apply contains_iff. apply contains_iff in H.
  exact (Substring_trans _ _ _ H Hpq).
Qed.

Lemma checklist_tests_mono (p q : string) :
  Substring p q ->
  Forall (fun item => fst item p = true -> fst item q = true) checklist.
Proof.
  intros Hpq. unfold checklist.
  repeat (constructor; [cbn [fst]; try apply (contains_mono _ _ _ Hpq) |]);
    [| constructor].
  intros H. apply andb_true_iff in H as [H1 H2].
  now rewrite (contains_mono _ _ _ Hpq H1), (contains_mono _ _ _ Hpq H2).
Qed.

(** X18. The breakdown grows with the pattern: every line given for a
    pattern is also given for each pattern that contains it, whatever
    surrounds it (an escaping backslash, a character class). *)
Theorem explain_components_mono (inner outer : string) :
  Substring inner outer ->
  incl (explain_components inner) (explain_components outer).
Proof.
  intros Hsub line. rewrite !explain_components_filter.
  unfold explain_by_checklist. rewrite !in_map_iff.
  intros [item [Hline Hin]]. exists item. split; [exact Hline |].
  apply filter_In in Hin as [Hin Htest]. apply filter_In. split; [exact Hin |].
  pose proof (checklist_tests_mono inner outer Hsub) as Hmono.
  rewrite Forall_forall in Hmono. now apply Hmono.
Qed.

Lemma explain_components_mono_witness :
  incl (explain_components "\d+") (explain_components "^[\d+]$").
Proof.
  apply explain_components_mono. now exists "^[", "]$".
Defined.

(** ** The order of display, test and explanation *)

Lemma test_pattern_returns {host : Host} (pattern sample : string) :
  (forall e, re_search pattern sample = SearchRaises e -> is_re_error e = true) ->
  snd (_test_pattern pattern sample) = Returned tt.
Proof.
  intros H. unfold _test_pattern.
  destruct (re_search pattern sample) as [e | | m].
  - cbn. now rewrite (H e eq_refl).
  - reflexivity.
  - destruct (groups m); reflexivity.
Qed.

Lemma explain_pattern_returns (pattern : string) :
  snd (_explain_pattern pattern) = Returned tt.
Proof. unfold _explain_pattern. now rewrite print_each_trace. Qed.

Lemma bind_returned {A B} (m : M A) (a : A) (k : A -> M B) :
  snd m = Returned a ->
  bind m k = ((fst m ++ fst (k a))%list, snd (k a)).
Proof.
  destruct m as [t o]. cbn. intros ->. now destruct (k a).
Qed.

(** X19. When the response gives a pattern and the engine raises nothing
    but [re.error], the [try] statement runs in this order: the request,
    the display of the result, the test when a non-empty test string is
    given, the explanation when the flag is set; then it returns. A
    pattern the engine rejects is reported by the tester and is still
    explained. *)
Theorem generation_sequence {host : Host} (prompt content : string)
    (test_string : option string) (explain : bool)
    (pat expl : string) (exs : list string) :
  chat_completions_create prompt = CompletionContent (Some content) ->
  _parse_response (strip content) = (pat, expl, exs) ->
  truthy pat = true ->
  (forall sample e, re_search pat sample = SearchRaises e -> is_re_error e = true) ->
  generate_with_model prompt test_string explain
  = ((ChatCompletionRequest "gpt-4" 400 prompt
        :: fst (_display_result pat expl exs)
        ++ match test_string with
           | Some sample =>
               if truthy sample then fst (_test_pattern pat sample) else []
           | None => []
           end
        ++ (if explain then fst (_explain_pattern pat) else []))%list,
     Returned tt).
Proof.
  intros Hc Hparse Hpat Hengine.
  unfold generate_with_model. rewrite Hc. cbn [bind].
  unfold generate_from_content. rewrite Hparse.
  rewrite !self_call_defined by reflexivity.
  rewrite bind_ret_l, Hpat. cbv beta iota.
  rewrite (self_call_defined "_display_result") by reflexivity.
  rewrite (bind_returned _ tt _ (display_result_returns pat expl exs)).
  set (shown := fst (_display_result pat expl exs)).
  assert (Htest :
    exists tested,
      (match test_string with
       | Some sample =>
           if truthy sample then self_call "_test_pattern" (_test_pattern pat sample)
           else ret tt
       | None => ret tt
       end) = (tested, Returned tt)
      /\ tested = match test_string with
                  | Some sample =>
                      if truthy sample then fst (_test_pattern pat sample) else []
                  | None => []
                  end).
  { destruct test_string as [sample |]; [| now exists []].
    destruct (truthy sample); [| now exists []].
    rewrite self_call_defined by reflexivity.
    pose proof (test_pattern_returns pat sample (Hengine sample)) as Hr.
    destruct (_test_pattern pat sample) as [t o]. cbn in Hr. subst o.
    now exists t. }
  destruct Htest as [tested [-> <-]].
  assert (Hexplain :
    (if explain then self_call "_explain_pattern" (_explain_pattern pat) else ret tt)
    = ((if explain then fst (_explain_pattern pat) else []), Returned tt)).
  { destruct explain; [| reflexivity].
    rewrite self_call_defined by reflexivity.
    pose proof (explain_pattern_returns pat) as Hr.
    destruct (_explain_pattern pat) as [t o]. cbn in Hr. now subst o. }
  cbn [bind fst snd]. rewrite Hexplain. cbn [try_except app]. reflexivity.
Qed.

Lemma generation_sequence_witness :
  generate_with_model (host := paren_host) "any prompt" (Some "abc") true
  = ((ChatCompletionRequest "gpt-4" 400 "any prompt"
        :: fst (_display_result "(" "" [])
        ++ (if truthy "abc" then fst (_test_pattern (host := paren_host) "(" "abc") else [])
        ++ fst (_explain_pattern "("))%list,
     Returned tt).
Proof.
  apply (generation_sequence (host := paren_host)
           "any prompt" "PATTERN: (" (Some "abc") true "(" "" []);
    try reflexivity.
  intros sample e H. cbn in H. injection H as <-. reflexivity.
Defined.
